(** * seller-apis: reconciliation of a supplier feed with two marketplaces

    A shallow embedding of [seller.py] (marketplace A) and [market.py]
    (marketplace B): the quantity and price normalisation, the record
    reconciliation ([create_stocks], [create_prices]), the list chunking
    ([divide]), the pagination loops ([get_offer_ids]) and the upload flows
    ([upload_stocks], [upload_prices]).

    Python values that reach the modelled code are spreadsheet cells (text or
    integers, or [None] for a missing column) and JSON strings.  Text is a
    Rocq [string], i.e. the UTF-8 bytes of the Python [str].  Equality of
    texts, [split(".")] and the pattern "[^0-9]" agree on bytes and on code
    points, since no byte of a multi-byte UTF-8 sequence is an ASCII byte;
    [int] does look at code points, and its model decodes them.  An integer
    cell is a spreadsheet number read as an integer, hence far below the
    4300 digits from which [str] of an integer raises.  Floating-point cells
    are outside the embedding. *)

From Stdlib Require Import String Ascii List ZArith Lia Bool Arith PeanoNat.
From Stdlib Require Import Permutation DecimalString DecimalZ.
Import ListNotations.

Local Open Scope string_scope.
Local Open Scope list_scope.

(** ** Exceptions and fallible computations *)

Inductive exn : Type :=
| ValueError
| TypeError
| AttributeError
| HTTPError
| JSONDecodeError.

Inductive result (A : Type) : Type :=
| Ok (a : A)
| Raise (e : exn).
Arguments Ok {A} a.
Arguments Raise {A} e.

Definition rbind {A B} (r : result A) (k : A -> result B) : result B :=
  match r with
  | Ok a => k a
  | Raise e => Raise e
  end.

Declare Scope result_scope.
Delimit Scope result_scope with result.
Notation "x <- c ;; k" := (rbind c (fun x => k))
  (at level 61, c at next level, right associativity) : result_scope.
Notation "' p <- c ;; k" := (rbind c (fun x => match x with p => k end))
  (at level 61, p pattern, c at next level, right associativity) : result_scope.
Local Open Scope result_scope.

Definition is_ok {A} (r : result A) : bool :=
  match r with Ok _ => true | Raise _ => false end.

(** ** Python values and their coercions *)

Inductive pyval : Type :=
| PyNone
| PyInt (z : Z)
| PyStr (s : string).

(** [str(v)], for the cells the spreadsheet reader produces: an integer
    cell is a 64-bit number, and [str] of an integer raises [ValueError]
    only from 4301 decimal digits on.  Statements about integer cells of
    any size carry the bound as a hypothesis. *)
Definition py_str (v : pyval) : string :=
  match v with
  | PyNone => "None"
  | PyInt z => NilZero.string_of_int (Z.to_int z)
  | PyStr s => s
  end.

Definition is_digit (c : ascii) : bool :=
  let n := nat_of_ascii c in (48 <=? n)%nat && (n <=? 57)%nat.

Definition digit_val (c : ascii) : Z := Z.of_nat (nat_of_ascii c) - 48.

(** [Py_ISSPACE]: the ASCII blanks that [int(str)] skips at both ends. *)
Definition is_space (c : ascii) : bool :=
  let n := nat_of_ascii c in
  (n =? 32)%nat || ((9 <=? n)%nat && (n <=? 13)%nat).

Fixpoint lstrip (s : string) : string :=
  match s with
  | String c s' => if is_space c then lstrip s' else s
  | EmptyString => EmptyString
  end.

Fixpoint rstrip (s : string) : string :=
  match s with
  | EmptyString => EmptyString
  | String c s' =>
      match rstrip s' with
      | EmptyString => if is_space c then EmptyString else String c EmptyString
      | r => String c r
      end
  end.

(** Digits of a base-10 literal, most significant first; a single underscore
    may separate two digits.  [acc] is the value read so far and [prev] tells
    whether the previous character was a digit. *)
Fixpoint int_digits (s : string) (acc : Z) (prev : bool) : option Z :=
  match s with
  | EmptyString => if prev then Some acc else None
  | String c s' =>
      if is_digit c then int_digits s' (10 * acc + digit_val c) true
      else if Ascii.eqb c "_" then
             (if prev then
                match s' with
                | String d _ => if is_digit d then int_digits s' acc false else None
                | EmptyString => None
                end
              else None)
      else None
  end.

(** *** Text as code points

    [int(str)] looks at code points, not bytes: it takes the decimal digits
    and the blanks of every script.  [utf8_decode] reads the code points off
    the UTF-8 bytes; [None] is for bytes that are no UTF-8 text, which no
    Python [str] gives. *)

Definition continuation (b : ascii) : option N :=
  let n := N_of_ascii b in
  if ((128 <=? n) && (n <? 192))%N then Some (n - 128)%N else None.

Fixpoint utf8_decode (s : string) : option (list N) :=
  match s with
  | EmptyString => Some []
  | String b0 s1 =>
      let n0 := N_of_ascii b0 in
      if (n0 <? 128)%N then option_map (cons n0) (utf8_decode s1)
      else if (n0 <? 192)%N then None
      else if (n0 <? 224)%N then
        match s1 with
        | String b1 s2 =>
            match continuation b1 with
            | Some c1 =>
                option_map (cons ((n0 - 192) * 64 + c1)%N) (utf8_decode s2)
            | None => None
            end
        | EmptyString => None
        end
      else if (n0 <? 240)%N then
        match s1 with
        | String b1 (String b2 s3) =>
            match continuation b1, continuation b2 with
            | Some c1, Some c2 =>
                option_map (cons ((n0 - 224) * 4096 + c1 * 64 + c2)%N)
                           (utf8_decode s3)
            | _, _ => None
            end
        | _ => None
        end
      else
        match s1 with
        | String b1 (String b2 (String b3 s4)) =>
            match continuation b1, continuation b2, continuation b3 with
            | Some c1, Some c2, Some c3 =>
                option_map
                  (cons ((n0 - 240) * 262144 + c1 * 4096 + c2 * 64 + c3)%N)
                  (utf8_decode s4)
            | _, _, _ => None
            end
        | _ => None
        end
  end.

(** The code points of the digit zero of every decimal script (Unicode
    14.0, the character database of CPython 3.11); the ten digits of a
    script follow each other from its zero. *)
Definition decimal_zeros : list N :=
  [ 0x30; 0x660; 0x6f0; 0x7c0; 0x966; 0x9e6; 0xa66; 0xae6; 0xb66; 0xbe6;
    0xc66; 0xce6; 0xd66; 0xde6; 0xe50; 0xed0; 0xf20; 0x1040; 0x1090; 0x17e0;
    0x1810; 0x1946; 0x19d0; 0x1a80; 0x1a90; 0x1b50; 0x1bb0; 0x1c40; 0x1c50;
    0xa620; 0xa8d0; 0xa900; 0xa9d0; 0xa9f0; 0xaa50; 0xabf0; 0xff10; 0x104a0;
    0x10d30; 0x11066; 0x110f0; 0x11136; 0x111d0; 0x112f0; 0x11450; 0x114d0;
    0x11650; 0x116c0; 0x11730; 0x118e0; 0x11950; 0x11c50; 0x11d50; 0x11da0;
    0x16a60; 0x16ac0; 0x16b50; 0x1d7ce; 0x1d7d8; 0x1d7e2; 0x1d7ec; 0x1d7f6;
    0x1e140; 0x1e2f0; 0x1e950; 0x1fbf0 ]%N.

(** [Py_UNICODE_TODECIMAL] *)
Definition unicode_decimal (cp : N) : option N :=
  match find (fun z => (z <=? cp) && (cp <? z + 10))%N decimal_zeros with
  | Some z => Some (cp - z)%N
  | None => None
  end.

(** [Py_UNICODE_ISSPACE] beyond ASCII. *)
Definition unicode_space (cp : N) : bool :=
  existsb (N.eqb cp)
    [ 0x85; 0xa0; 0x1680; 0x2000; 0x2001; 0x2002; 0x2003; 0x2004; 0x2005;
      0x2006; 0x2007; 0x2008; 0x2009; 0x200a; 0x2028; 0x2029; 0x202f; 0x205f;
      0x3000 ]%N.

(** What [int] makes of one code point before it parses: ASCII stays, a
    blank of another script becomes a space, a decimal digit of another
    script its ASCII digit; anything else cannot be part of a number. *)
Definition ascii_of_code_point (cp : N) : option ascii :=
  if (cp <? 128)%N then Some (ascii_of_N cp)
  else if unicode_space cp then Some " "%char
  else match unicode_decimal cp with
       | Some d => Some (ascii_of_N (48 + d))
       | None => None
       end.

Fixpoint decimal_and_space_to_ascii (cps : list N) : option string :=
  match cps with
  | [] => Some EmptyString
  | cp :: rest =>
      match ascii_of_code_point cp, decimal_and_space_to_ascii rest with
      | Some c, Some s => Some (String c s)
      | _, _ => None
      end
  end.

Fixpoint digit_count (s : string) : N :=
  match s with
  | EmptyString => 0%N
  | String c s' => ((if is_digit c then 1 else 0) + digit_count s')%N
  end.

(** The most digits [int] converts from text and [str] writes for an
    integer (the default of [sys.int_max_str_digits] since CPython 3.11). *)
Definition max_str_digits : N := 4300.

(** The parse of the ASCII text: blanks stripped at both ends, an optional
    sign, then digits, no more than [max_str_digits] of them. *)
Definition int_of_ascii (s : string) : option Z :=
  let body :=
    match lstrip (rstrip s) with
    | String "-" d => (true, d)
    | String "+" d => (false, d)
    | d => (false, d)
    end in
  if (max_str_digits <? digit_count (snd body))%N then None
  else if fst body then option_map Z.opp (int_digits (snd body) 0 false)
       else int_digits (snd body) 0 false.

(** [int(s)] for text [s]; [None] stands for [ValueError]. *)
Definition int_of_text (s : string) : option Z :=
  match utf8_decode s with
  | Some cps =>
      match decimal_and_space_to_ascii cps with
      | Some a => int_of_ascii a
      | None => None
      end
  | None => None
  end.

(** [int(v)] *)
Definition py_int (v : pyval) : result Z :=
  match v with
  | PyNone => Raise TypeError
  | PyInt z => Ok z
  | PyStr s =>
      match int_of_text s with
      | Some z => Ok z
      | None => Raise ValueError
      end
  end.

(** ** Price normalisation ([seller.price_conversion]) *)

(** [s.split(sep)] for a one-character separator. *)
Fixpoint split_on (sep : ascii) (s : string) : list string :=
  match s with
  | EmptyString => [EmptyString]
  | String c s' =>
      if Ascii.eqb c sep then EmptyString :: split_on sep s'
      else match split_on sep s' with
           | p :: ps => String c p :: ps
           | [] => [String c EmptyString]
           end
  end.

(** [re.sub] of the pattern "[^0-9]" by the empty text. *)
Fixpoint sub_non_digits (s : string) : string :=
  match s with
  | EmptyString => EmptyString
  | String c s' =>
      if is_digit c then String c (sub_non_digits s') else sub_non_digits s'
  end.

(** [price.split(".")[0]] *)
Definition split_dot_0 (price : string) : string :=
  match split_on "." price with
  | p :: _ => p
  | [] => EmptyString
  end.

Definition price_conversion (price : string) : string :=
  sub_non_digits (split_dot_0 price).

(** [price_conversion] applied to a cell: a cell that is not text has no
    [split] method. *)
Definition price_conversion_val (price : pyval) : result string :=
  match price with
  | PyStr s => Ok (price_conversion s)
  | _ => Raise AttributeError
  end.

Fixpoint all_digits (s : string) : bool :=
  match s with
  | EmptyString => true
  | String c s' => is_digit c && all_digits s'
  end.

Fixpoint has_char (x : ascii) (s : string) : bool :=
  match s with
  | EmptyString => false
  | String c s' => Ascii.eqb c x || has_char x s'
  end.

(** ** Python list operations used by the reconciler *)

(** [x in l] *)
Definition py_in (x : string) (l : list string) : bool :=
  existsb (String.eqb x) l.

(** The list left by [l.remove(x)]: the first occurrence of [x] goes, the
    order of the rest is kept. *)
Fixpoint remove_first (x : string) (l : list string) : list string :=
  match l with
  | [] => []
  | y :: l' => if String.eqb x y then l' else y :: remove_first x l'
  end.

(** [l.remove(x)], which raises [ValueError] when [x] is not in [l]. *)
Definition py_remove (x : string) (l : list string) : result (list string) :=
  if py_in x l then Ok (remove_first x l) else Raise ValueError.

(** ** Feed records *)

(** One row of the supplier spreadsheet, as the dictionary the code reads:
    [code] is [watch.get("Код")], [quantity] is [watch.get("Количество")] and
    [price] is [watch.get("Цена")]; a missing key reads as [PyNone]. *)
Record watch : Type := {
  code : pyval;
  quantity : pyval;
  price : pyval
}.

(** The quantity rule shared by both [create_stocks] (seller.py 193-199,
    market.py 173-179): the comparisons are made on [str] of the cell, the
    conversion [int] on the cell itself. *)
Definition stock_of_quantity (q : pyval) : result Z :=
  let count := py_str q in
  if String.eqb count ">10" then Ok 100%Z
  else if String.eqb count "1" then Ok 0%Z
  else py_int q.

(** ** Chunking ([seller.divide]) *)

(** [range(start, stop, step)] for a positive step, as the list of its
    values; [fuel] bounds the number of values. *)
Fixpoint range_from (fuel : nat) (start stop step : nat) : list nat :=
  match fuel with
  | O => []
  | S fuel' =>
      if (start <? stop)%nat then start :: range_from fuel' (start + step) stop step
      else []
  end.

(** [range(start, stop, step)]: a zero step raises [ValueError]; with a
    positive step no more than [stop - start] values are produced. *)
Definition py_range (start stop step : nat) : result (list nat) :=
  if (step =? 0)%nat then Raise ValueError
  else Ok (range_from (stop - start) start stop step).

(** [lst[i:j]] for [0 <= i <= j]. *)
Definition slice {A} (lst : list A) (i j : nat) : list A :=
  firstn (j - i) (skipn i lst).

(** [list(divide(lst, n))]: the chunks in the order they are yielded. *)
Definition divide {A} (lst : list A) (n : nat) : result (list (list A)) :=
  idx <- py_range 0 (List.length lst) n ;;
  Ok (map (fun i => slice lst i (i + n)) idx).

(** ** HTTP calls

    The calls made through [requests] are the only effects of the upload
    flows.  A computation runs against a server, which answers a request
    knowing the requests made before it, and carries the trace of the requests
    issued so far.  Its outcome is [Some r] when it has returned or raised, and
    [None] when a [while True] loop is still running after the number of
    iterations it was allowed. *)

Definition io (Req A : Type) : Type :=
  list Req -> option (result A) * list Req.

Definition io_ret {Req A} (a : A) : io Req A :=
  fun tr => (Some (Ok a), tr).

Definition io_raise {Req A} (e : exn) : io Req A :=
  fun tr => (Some (Raise e), tr).

Definition io_bind {Req A B} (m : io Req A) (k : A -> io Req B) : io Req B :=
  fun tr =>
    match m tr with
    | (Some (Ok a), tr') => k a tr'
    | (Some (Raise e), tr') => (Some (Raise e), tr')
    | (None, tr') => (None, tr')
    end.

Definition io_lift {Req A} (r : result A) : io Req A :=
  fun tr => (Some r, tr).

Definition still_running {Req A} : io Req A :=
  fun tr => (None, tr).

(** One HTTP exchange: the server answers, the request joins the trace. *)
Definition http {Req Resp} (srv : list Req -> Req -> Resp) (req : Req)
  : io Req Resp :=
  fun tr => (Some (Ok (srv tr req)), tr ++ [req]).

Declare Scope io_scope.
Delimit Scope io_scope with io.
Notation "x <- c ;; k" := (io_bind c (fun x => k))
  (at level 61, c at next level, right associativity) : io_scope.
Notation "' p <- c ;; k" := (io_bind c (fun x => match x with p => k end))
  (at level 61, p pattern, c at next level, right associativity) : io_scope.

(** [for x in l: f(x)] *)
Fixpoint for_each {Req A B} (f : A -> io Req B) (l : list A) : io Req unit :=
  match l with
  | [] => io_ret tt
  | x :: l' => (_ <- f x ;; for_each f l')%io
  end.

(** [Response.raise_for_status()] of [requests]: [HTTPError] for the client
    and server error codes 400 to 599, nothing for any other status. *)
Definition raise_for_status (status_code : Z) : result unit :=
  if ((400 <=? status_code) && (status_code <? 600))%Z then Raise HTTPError
  else Ok tt.

(** ** Marketplace A (seller.py) *)

Module Seller.

Record stock_update : Type := {
  offer_id : string;
  stock : Z
}.

Record price_update : Type := {
  auto_action_enabled : string;
  currency_code : string;
  price_offer_id : string;
  old_price : string;
  price_value : string
}.

(** The first loop of [create_stocks]; [stocks] and [offer_ids] are the two
    lists it mutates, [offer_ids] being the caller's list object. *)
Fixpoint stocks_loop (watch_remnants : list watch)
    (stocks : list stock_update) (offer_ids : list string)
  : result (list stock_update * list string) :=
  match watch_remnants with
  | [] => Ok (stocks, offer_ids)
  | w :: rest =>
      if py_in (py_str (code w)) offer_ids then
        stock <- stock_of_quantity (quantity w) ;;
        offer_ids' <- py_remove (py_str (code w)) offer_ids ;;
        stocks_loop rest
          (stocks ++ [ {| offer_id := py_str (code w); stock := stock |} ])
          offer_ids'
      else stocks_loop rest stocks offer_ids
  end.

(** [create_stocks(watch_remnants, offer_ids)]: the returned list together
    with the contents of the caller's [offer_ids] list on return. *)
Definition create_stocks (watch_remnants : list watch) (offer_ids : list string)
  : result (list stock_update * list string) :=
  ' (stocks, offer_ids') <- stocks_loop watch_remnants [] offer_ids ;;
  Ok (fold_left
        (fun stocks offer_id => stocks ++ [ {| offer_id := offer_id; stock := 0 |} ])
        offer_ids' stocks,
      offer_ids').

Fixpoint prices_loop (watch_remnants : list watch)
    (prices : list price_update) (offer_ids : list string)
  : result (list price_update) :=
  match watch_remnants with
  | [] => Ok prices
  | w :: rest =>
      if py_in (py_str (code w)) offer_ids then
        p <- price_conversion_val (price w) ;;
        prices_loop rest
          (prices ++ [ {| auto_action_enabled := "UNKNOWN";
                          currency_code := "RUB";
                          price_offer_id := py_str (code w);
                          old_price := "0";
                          price_value := p |} ])
          offer_ids
      else prices_loop rest prices offer_ids
  end.

(** [create_prices(watch_remnants, offer_ids)]; it never writes to
    [offer_ids]. *)
Definition create_prices (watch_remnants : list watch) (offer_ids : list string)
  : result (list price_update) :=
  prices_loop watch_remnants [] offer_ids.

(** Reconciliation as the upload flows do it: [create_stocks] and
    [create_prices] each on its own freshly fetched identifier list. *)
Definition reconcile (watch_remnants : list watch) (identifiers : list string)
  : result (list stock_update * list price_update) :=
  ' (stocks, _) <- create_stocks watch_remnants identifiers ;;
  prices <- create_prices watch_remnants identifiers ;;
  Ok (stocks, prices).

(** The data part of [main] (seller.py 316-323): one identifier list is
    passed to [create_stocks] and then, as [create_stocks] left it, to
    [create_prices]. *)
Definition main_reconcile (watch_remnants : list watch) (offer_ids : list string)
  : result (list stock_update * list price_update) :=
  ' (stocks, offer_ids') <- create_stocks watch_remnants offer_ids ;;
  prices <- create_prices watch_remnants offer_ids' ;;
  Ok (stocks, prices).

(** *** The HTTP side of marketplace A *)

Record product : Type := { product_offer_id : string }.

(** The ["result"] object of a listing answer. *)
Record listing : Type := {
  items : list product;
  total : Z;
  last_id : string
}.

(** A response body: not JSON at all, or a JSON object whose ["result"]
    entry, when there is one, is a listing. *)
Inductive body : Type :=
| NotJSON
| JSON (result_field : option listing).

Record response : Type := {
  status_code : Z;
  content : body
}.

Inductive request : Type :=
| ProductList (last_id : string)
| UpdateStocks (stocks : list stock_update)
| UpdatePrice (prices : list price_update).

Definition server : Type := list request -> request -> response.

(** [response.json()] *)
Definition response_json (r : response) : result (option listing) :=
  match content r with
  | NotJSON => Raise JSONDecodeError
  | JSON o => Ok o
  end.

Definition get_product_list (srv : server) (last_id : string)
  : io request (option listing) :=
  (response <- http srv (ProductList last_id) ;;
   _ <- io_lift (raise_for_status (status_code response)) ;;
   response_object <- io_lift (response_json response) ;;
   io_ret response_object)%io.

(** The [while True] loop of [get_offer_ids], run for at most [fuel]
    iterations. *)
Fixpoint offer_ids_loop (fuel : nat) (srv : server) (last_id : string)
    (product_list : list product) : io request (list product) :=
  match fuel with
  | O => still_running
  | S fuel' =>
      (some_prod <- get_product_list srv last_id ;;
       match some_prod with
       | None => io_raise AttributeError
       | Some some_prod =>
           let product_list := product_list ++ items some_prod in
           if (total some_prod =? Z.of_nat (List.length product_list))%Z
           then io_ret product_list
           else offer_ids_loop fuel' srv (Seller.last_id some_prod) product_list
       end)%io
  end.

Definition get_offer_ids (fuel : nat) (srv : server) : io request (list string) :=
  (product_list <- offer_ids_loop fuel srv EmptyString [] ;;
   io_ret (map product_offer_id product_list))%io.

Definition update_price (srv : server) (prices : list price_update)
  : io request (option listing) :=
  (response <- http srv (UpdatePrice prices) ;;
   _ <- io_lift (raise_for_status (status_code response)) ;;
   io_lift (response_json response))%io.

Definition update_stocks (srv : server) (stocks : list stock_update)
  : io request (option listing) :=
  (response <- http srv (UpdateStocks stocks) ;;
   _ <- io_lift (raise_for_status (status_code response)) ;;
   io_lift (response_json response))%io.

(** The body of the coroutine [upload_prices]. *)
Definition upload_prices (fuel : nat) (srv : server) (watch_remnants : list watch)
  : io request (list price_update) :=
  (offer_ids <- get_offer_ids fuel srv ;;
   prices <- io_lift (create_prices watch_remnants offer_ids) ;;
   chunks <- io_lift (divide prices 1000) ;;
   _ <- for_each (update_price srv) chunks ;;
   io_ret prices)%io.

(** The body of the coroutine [upload_stocks]. *)
Definition upload_stocks (fuel : nat) (srv : server) (watch_remnants : list watch)
  : io request (list stock_update * list stock_update) :=
  (offer_ids <- get_offer_ids fuel srv ;;
   ' (stocks, _) <- io_lift (create_stocks watch_remnants offer_ids) ;;
   chunks <- io_lift (divide stocks 100) ;;
   _ <- for_each (update_stocks srv) chunks ;;
   let not_empty := filter (fun s => negb (stock s =? 0)%Z) stocks in
   io_ret (not_empty, stocks))%io.

Definition is_upload (r : request) : bool :=
  match r with
  | ProductList _ => false
  | UpdateStocks _ | UpdatePrice _ => true
  end.

(** The tokens a client following the continuation tokens sends for the
    pages [pages], the first request carrying [tok]. *)
Fixpoint page_tokens (tok : string) (pages : list listing) : list string :=
  match pages with
  | [] => []
  | p :: rest => tok :: page_tokens (Seller.last_id p) rest
  end.

(** The server answers the listing request for [tok] with the first page of
    [pages], whatever was requested before, and so on along the continuation
    tokens; the token is empty on the final page and on no other. *)
Fixpoint serves (srv : server) (tok : string) (pages : list listing) : Prop :=
  match pages with
  | [] => False
  | p :: rest =>
      (forall tr,
          (200 <= status_code (srv tr (ProductList tok)) < 300)%Z /\
          content (srv tr (ProductList tok)) = JSON (Some p)) /\
      match rest with
      | [] => Seller.last_id p = EmptyString
      | _ :: _ => Seller.last_id p <> EmptyString /\ serves srv (Seller.last_id p) rest
      end
  end.

(** A well-behaved server: it serves a catalogue as a sequence of pages from
    the empty token on, and every page reports the size of the whole
    catalogue as its total. *)
Definition well_behaved (srv : server) (pages : list listing) : Prop :=
  serves srv EmptyString pages /\
  Forall (fun p => total p = Z.of_nat (List.length (List.concat (map items pages))))
         pages.

(** The upload endpoints take the request [req] when the answer neither has
    an error status nor a body that is not JSON. *)
Definition accepted (r : response) : bool :=
  is_ok (raise_for_status (status_code r)) &&
  match content r with NotJSON => false | JSON _ => true end.

(** The statements of the [try] block of [main] (seller.py 316-325).
    [download_stock] stands for the outcome of [download_stock()], which
    talks to the supplier's host and is kept out of the trace; the lists
    [stocks] and [prices] that [main] builds are returned for inspection.
    The name [offer_ids] is bound once: [create_prices] receives the list
    object that [create_stocks] has worked on. *)
Definition main_try (fuel : nat) (srv : server)
    (download_stock : result (list watch))
  : io request (list stock_update * list price_update) :=
  (offer_ids <- get_offer_ids fuel srv ;;
   watch_remnants <- io_lift download_stock ;;
   ' (stocks, offer_ids) <- io_lift (create_stocks watch_remnants offer_ids) ;;
   chunks <- io_lift (divide stocks 100) ;;
   _ <- for_each (update_stocks srv) chunks ;;
   prices <- io_lift (create_prices watch_remnants offer_ids) ;;
   chunks <- io_lift (divide prices 900) ;;
   _ <- for_each (update_price srv) chunks ;;
   io_ret (stocks, prices))%io.

End Seller.

(** ** Marketplace B (market.py) *)

(** What [datetime.datetime.utcnow()] reads from the clock. *)
Record datetime : Type := {
  year : nat;
  month : nat;
  day : nat;
  hour : nat;
  minute : nat;
  second : nat;
  microsecond : nat
}.

(** [d.replace(microsecond=0)] *)
Definition replace_microsecond_0 (d : datetime) : datetime :=
  {| year := year d; month := month d; day := day d; hour := hour d;
     minute := minute d; second := second d; microsecond := 0 |}.

Definition digit_char (n : nat) : ascii := ascii_of_nat (48 + n mod 10).

(** The [width] least significant decimal digits of [n], zero padded. *)
Fixpoint zero_pad (width n : nat) : string :=
  match width with
  | O => EmptyString
  | S w => (zero_pad w (n / 10) ++ String (digit_char n) EmptyString)%string
  end.

(** [d.isoformat()] of a naive datetime. *)
Definition isoformat (d : datetime) : string :=
  (zero_pad 4 (year d) ++ "-" ++ zero_pad 2 (month d) ++ "-" ++ zero_pad 2 (day d)
   ++ "T" ++ zero_pad 2 (hour d) ++ ":" ++ zero_pad 2 (minute d) ++ ":"
   ++ zero_pad 2 (second d)
   ++ (if Nat.eqb (microsecond d) 0 then EmptyString
       else "." ++ zero_pad 6 (microsecond d)))%string.

Module Market.

Record item : Type := {
  count : Z;
  type : string;
  updatedAt : string
}.

Record stock_update : Type := {
  sku : string;
  warehouseId : string;
  items : list item
}.

Record price_body : Type := {
  value : Z;
  currencyId : string
}.

Record price_update : Type := {
  id : string;
  price_of : price_body
}.

Definition stock_entry (sku warehouse_id : string) (stock : Z) (date : string)
  : stock_update :=
  {| sku := sku; warehouseId := warehouse_id;
     items := [ {| count := stock; type := "FIT"; updatedAt := date |} ] |}.

Fixpoint stocks_loop (warehouse_id date : string) (watch_remnants : list watch)
    (stocks : list stock_update) (offer_ids : list string)
  : result (list stock_update * list string) :=
  match watch_remnants with
  | [] => Ok (stocks, offer_ids)
  | w :: rest =>
      if py_in (py_str (code w)) offer_ids then
        stock <- stock_of_quantity (quantity w) ;;
        offer_ids' <- py_remove (py_str (code w)) offer_ids ;;
        stocks_loop warehouse_id date rest
          (stocks ++ [ stock_entry (py_str (code w)) warehouse_id stock date ])
          offer_ids'
      else stocks_loop warehouse_id date rest stocks offer_ids
  end.

(** [create_stocks(watch_remnants, offer_ids, warehouse_id)], run when the
    clock reads [now]; as for marketplace A the second component is the
    caller's [offer_ids] list on return. *)
Definition create_stocks (now : datetime) (watch_remnants : list watch)
    (offer_ids : list string) (warehouse_id : string)
  : result (list stock_update * list string) :=
  let date := (isoformat (replace_microsecond_0 now) ++ "Z")%string in
  ' (stocks, offer_ids') <- stocks_loop warehouse_id date watch_remnants [] offer_ids ;;
  Ok (fold_left
        (fun stocks offer_id => stocks ++ [ stock_entry offer_id warehouse_id 0 date ])
        offer_ids' stocks,
      offer_ids').

Fixpoint prices_loop (watch_remnants : list watch)
    (prices : list price_update) (offer_ids : list string)
  : result (list price_update) :=
  match watch_remnants with
  | [] => Ok prices
  | w :: rest =>
      if py_in (py_str (code w)) offer_ids then
        p <- price_conversion_val (price w) ;;
        v <- py_int (PyStr p) ;;
        prices_loop rest
          (prices ++ [ {| id := py_str (code w);
                          price_of := {| value := v; currencyId := "RUR" |} |} ])
          offer_ids
      else prices_loop rest prices offer_ids
  end.

Definition create_prices (watch_remnants : list watch) (offer_ids : list string)
  : result (list price_update) :=
  prices_loop watch_remnants [] offer_ids.

(** *** The HTTP side of marketplace B *)

Record offer_info : Type := { shopSku : string }.

Record entry : Type := { offer : offer_info }.

Record paging_info : Type := { nextPageToken : option string }.

(** The ["result"] object of a listing answer. *)
Record listing : Type := {
  offerMappingEntries : list entry;
  paging : paging_info
}.

Inductive body : Type :=
| NotJSON
| JSON (result_field : option listing).

Record response : Type := {
  status_code : Z;
  content : body
}.

Inductive request : Type :=
| ProductList (page : string)
| UpdateStocks (stocks : list stock_update)
| UpdatePrice (prices : list price_update).

Definition server : Type := list request -> request -> response.

Definition response_json (r : response) : result (option listing) :=
  match content r with
  | NotJSON => Raise JSONDecodeError
  | JSON o => Ok o
  end.

Definition get_product_list (srv : server) (page : string)
  : io request (option listing) :=
  (response <- http srv (ProductList page) ;;
   _ <- io_lift (raise_for_status (status_code response)) ;;
   response_object <- io_lift (response_json response) ;;
   io_ret response_object)%io.

(** [not page] for a token that is [None] or text. *)
Definition token_falsy (page : option string) : bool :=
  match page with
  | None => true
  | Some t => String.eqb t EmptyString
  end.

(** The [while True] loop of [get_offer_ids], run for at most [fuel]
    iterations. *)
Fixpoint offer_ids_loop (fuel : nat) (srv : server) (page : string)
    (product_list : list entry) : io request (list entry) :=
  match fuel with
  | O => still_running
  | S fuel' =>
      (some_prod <- get_product_list srv page ;;
       match some_prod with
       | None => io_raise AttributeError
       | Some some_prod =>
           let product_list := product_list ++ offerMappingEntries some_prod in
           match nextPageToken (paging some_prod) with
           | None => io_ret product_list
           | Some page =>
               if String.eqb page EmptyString then io_ret product_list
               else offer_ids_loop fuel' srv page product_list
           end
       end)%io
  end.

Definition get_offer_ids (fuel : nat) (srv : server) : io request (list string) :=
  (product_list <- offer_ids_loop fuel srv EmptyString [] ;;
   io_ret (map (fun product => shopSku (offer product)) product_list))%io.

Definition update_stocks (srv : server) (stocks : list stock_update)
  : io request (option listing) :=
  (response <- http srv (UpdateStocks stocks) ;;
   _ <- io_lift (raise_for_status (status_code response)) ;;
   io_lift (response_json response))%io.

Definition update_price (srv : server) (prices : list price_update)
  : io request (option listing) :=
  (response <- http srv (UpdatePrice prices) ;;
   _ <- io_lift (raise_for_status (status_code response)) ;;
   io_lift (response_json response))%io.

(** The body of the coroutine [upload_prices]. *)
Definition upload_prices (fuel : nat) (srv : server) (watch_remnants : list watch)
  : io request (list price_update) :=
  (offer_ids <- get_offer_ids fuel srv ;;
   prices <- io_lift (create_prices watch_remnants offer_ids) ;;
   chunks <- io_lift (divide prices 500) ;;
   _ <- for_each (update_price srv) chunks ;;
   io_ret prices)%io.

Definition first_count (s : stock_update) : Z :=
  match items s with
  | i :: _ => count i
  | [] => 0%Z
  end.

(** The body of the coroutine [upload_stocks]; [now] is what the clock reads
    when [create_stocks] runs. *)
Definition upload_stocks (fuel : nat) (srv : server) (now : datetime)
    (watch_remnants : list watch) (warehouse_id : string)
  : io request (list stock_update * list stock_update) :=
  (offer_ids <- get_offer_ids fuel srv ;;
   ' (stocks, _) <- io_lift (create_stocks now watch_remnants offer_ids warehouse_id) ;;
   chunks <- io_lift (divide stocks 2000) ;;
   _ <- for_each (update_stocks srv) chunks ;;
   let not_empty := filter (fun s => negb (first_count s =? 0)%Z) stocks in
   io_ret (not_empty, stocks))%io.

Definition is_upload (r : request) : bool :=
  match r with
  | ProductList _ => false
  | UpdateStocks _ | UpdatePrice _ => true
  end.

(** The token the client sends after page [p]. *)
Definition next_token (p : listing) : string :=
  match nextPageToken (paging p) with
  | Some t => t
  | None => EmptyString
  end.

Fixpoint page_tokens (tok : string) (pages : list listing) : list string :=
  match pages with
  | [] => []
  | p :: rest => tok :: page_tokens (next_token p) rest
  end.

(** The server answers the listing request for [tok] with the first page of
    [pages], whatever was requested before, and so on along the continuation
    tokens; the token is absent or empty on the final page and on no
    other. *)
Fixpoint serves (srv : server) (tok : string) (pages : list listing) : Prop :=
  match pages with
  | [] => False
  | p :: rest =>
      (forall tr,
          (200 <= status_code (srv tr (ProductList tok)) < 300)%Z /\
          content (srv tr (ProductList tok)) = JSON (Some p)) /\
      match rest with
      | [] => token_falsy (nextPageToken (paging p)) = true
      | _ :: _ =>
          token_falsy (nextPageToken (paging p)) = false /\
          serves srv (next_token p) rest
      end
  end.

Definition well_behaved (srv : server) (pages : list listing) : Prop :=
  serves srv EmptyString pages.

Definition accepted (r : response) : bool :=
  is_ok (raise_for_status (status_code r)) &&
  match content r with NotJSON => false | JSON _ => true end.

End Market.

(** ** Order-preserving selection *)

(** [Subseq l1 l2]: [l1] is [l2] with some elements left out, the others in
    their order. *)
Inductive Subseq {A : Type} : list A -> list A -> Prop :=
| Subseq_nil : Subseq [] []
| Subseq_skip (x : A) (l1 l2 : list A) : Subseq l1 l2 -> Subseq l1 (x :: l2)
| Subseq_keep (x : A) (l1 l2 : list A) : Subseq l1 l2 -> Subseq (x :: l1) (x :: l2).

(** ** Well-formed feed records (the data model of the feed) *)

(** The quantity of a FeedRecord is the token for "more than ten", the token
    for "exactly one", or integer text (or an integer cell); its price is
    text. *)
Definition feed_record_ok (w : watch) : bool :=
  is_ok (stock_of_quantity (quantity w)) &&
  match price w with PyStr _ => true | _ => false end.

Definition code_text (w : watch) : string := py_str (code w).

(** The quantity the feed gives for identifier [x]: that of the first record
    with this code, and 0 when no record has it. *)
Definition feed_quantity (watch_remnants : list watch) (x : string) : result Z :=
  match find (fun w => String.eqb (code_text w) x) watch_remnants with
  | Some w => stock_of_quantity (quantity w)
  | None => Ok 0%Z
  end.


(** ** Update entries and the records they come from *)

(** The stock update [u] was made for the feed record [w]: it carries the
    record's code and its normalised quantity. *)
Definition stock_from (w : watch) (u : Seller.stock_update) : Prop :=
  Seller.offer_id u = code_text w /\
  stock_of_quantity (quantity w) = Ok (Seller.stock u).

(** The price update [p] was made for the feed record [w]. *)
Definition price_from (w : watch) (p : Seller.price_update) : Prop :=
  exists s, price w = PyStr s /\
    p = {| Seller.auto_action_enabled := "UNKNOWN";
           Seller.currency_code := "RUB";
           Seller.price_offer_id := code_text w;
           Seller.old_price := "0";
           Seller.price_value := price_conversion s |}.

(** The zero-stock update appended for a leftover identifier. *)
Definition zero_stock (x : string) : Seller.stock_update :=
  {| Seller.offer_id := x; Seller.stock := 0 |}.

(** Number of elements of [l] equal to [x]. *)
Definition count_of (x : string) (l : list string) : nat :=
  count_occ string_dec l x.

(** [l] without the repetitions of its elements: each element stays where it
    first occurs. *)
Fixpoint first_occurrences (l : list string) : list string :=
  match l with
  | [] => []
  | x :: l' => x :: filter (fun y => negb (String.eqb x y)) (first_occurrences l')
  end.

(** The feed records whose code is among the identifiers [I]. *)
Definition listed (I : list string) (watch_remnants : list watch) : list watch :=
  filter (fun w => py_in (code_text w) I) watch_remnants.

(** The feed of the end-to-end scenario. *)
Definition scenario_feed : list watch :=
  [ {| code := PyStr "A1"; quantity := PyStr ">10"; price := PyStr "100.00" |};
    {| code := PyStr "A2"; quantity := PyStr "1"; price := PyStr "50.00" |} ].

(** The entry marketplace B sends for the stock update [u] of marketplace A. *)
Definition market_entry (warehouse_id date : string) (u : Seller.stock_update)
  : Market.stock_update :=
  Market.stock_entry (Seller.offer_id u) warehouse_id (Seller.stock u) date.

(** The [updatedAt] text of a run whose clock reads [now]. *)
Definition date_of (now : datetime) : string :=
  (isoformat (replace_microsecond_0 now) ++ "Z")%string.

(** ** Repeated calls *)

(** Two successive calls, each on a fresh copy of [identifiers]. *)
Definition twice_fresh {A} (call : list string -> result (A * list string))
    (identifiers : list string) : result (A * A) :=
  ' (out1, _) <- call identifiers ;;
  ' (out2, _) <- call identifiers ;;
  Ok (out1, out2).

(** Two successive calls on one and the same list object. *)
Definition twice_shared {A} (call : list string -> result (A * list string))
    (identifiers : list string) : result (A * A) :=
  ' (out1, identifiers') <- call identifiers ;;
  ' (out2, _) <- call identifiers' ;;
  Ok (out1, out2).

(** A stock entry of marketplace B with its timestamps blanked. *)
Definition without_date (s : Market.stock_update) : Market.stock_update :=
  {| Market.sku := Market.sku s;
     Market.warehouseId := Market.warehouseId s;
     Market.items :=
       map (fun i => {| Market.count := Market.count i;
                        Market.type := Market.type i;
                        Market.updatedAt := EmptyString |}) (Market.items s) |}.

(** Two readings of the clock, one second apart, and a third within the
    second of the first. *)
Definition clock_a : datetime :=
  {| year := 2024; month := 3; day := 9; hour := 7; minute := 5; second := 58;
     microsecond := 120 |}.

Definition clock_b : datetime :=
  {| year := 2024; month := 3; day := 9; hour := 7; minute := 5; second := 59;
     microsecond := 4 |}.

Definition clock_a' : datetime :=
  {| year := 2024; month := 3; day := 9; hour := 7; minute := 5; second := 58;
     microsecond := 900 |}.

(** ** Mock servers *)

Definition seller_page_1 : Seller.listing :=
  {| Seller.items := [ {| Seller.product_offer_id := "A1" |};
                       {| Seller.product_offer_id := "A2" |} ];
     Seller.total := 3;
     Seller.last_id := "p2" |}.

Definition seller_page_2 : Seller.listing :=
  {| Seller.items := [ {| Seller.product_offer_id := "A3" |} ];
     Seller.total := 3;
     Seller.last_id := EmptyString |}.

(** A listing of three products on two pages; every upload is accepted. *)
Definition seller_mock : Seller.server :=
  fun _ req =>
    match req with
    | Seller.ProductList tok =>
        if String.eqb tok EmptyString then
          {| Seller.status_code := 200;
             Seller.content := Seller.JSON (Some seller_page_1) |}
        else if String.eqb tok "p2" then
          {| Seller.status_code := 200;
             Seller.content := Seller.JSON (Some seller_page_2) |}
        else {| Seller.status_code := 404; Seller.content := Seller.NotJSON |}
    | _ => {| Seller.status_code := 200; Seller.content := Seller.JSON None |}
    end.

Definition seller_single_page : Seller.listing :=
  {| Seller.items := [ {| Seller.product_offer_id := "A1" |} ];
     Seller.total := 1;
     Seller.last_id := EmptyString |}.

(** A server whose listing endpoint answers with the status [status] and a
    complete one-page listing as its body; every upload is accepted. *)
Definition seller_mock_status (status : Z) : Seller.server :=
  fun tr req =>
    match req with
    | Seller.ProductList _ =>
        {| Seller.status_code := status;
           Seller.content := Seller.JSON (Some seller_single_page) |}
    | _ => seller_mock tr req
    end.

Definition market_page_1 : Market.listing :=
  {| Market.offerMappingEntries :=
       [ {| Market.offer := {| Market.shopSku := "A1" |} |};
         {| Market.offer := {| Market.shopSku := "A2" |} |} ];
     Market.paging := {| Market.nextPageToken := Some "p2" |} |}.

Definition market_page_2 : Market.listing :=
  {| Market.offerMappingEntries :=
       [ {| Market.offer := {| Market.shopSku := "A3" |} |} ];
     Market.paging := {| Market.nextPageToken := None |} |}.

Definition market_mock : Market.server :=
  fun _ req =>
    match req with
    | Market.ProductList tok =>
        if String.eqb tok EmptyString then
          {| Market.status_code := 200;
             Market.content := Market.JSON (Some market_page_1) |}
        else if String.eqb tok "p2" then
          {| Market.status_code := 200;
             Market.content := Market.JSON (Some market_page_2) |}
        else {| Market.status_code := 404; Market.content := Market.NotJSON |}
    | _ => {| Market.status_code := 200; Market.content := Market.JSON None |}
    end.

Definition market_mock_status (status : Z) : Market.server :=
  fun tr req =>
    match req with
    | Market.ProductList _ =>
        {| Market.status_code := status;
           Market.content := Market.JSON (Some market_page_2) |}
    | _ => market_mock tr req
    end.

(** A server with a complete one-page listing that answers every upload
    with status 200 and a body that is not JSON. *)
Definition seller_mock_bad_body : Seller.server :=
  fun tr req =>
    match req with
    | Seller.ProductList _ => seller_mock_status 200 tr req
    | _ => {| Seller.status_code := 200; Seller.content := Seller.NotJSON |}
    end.

(** ** The quantity text as the specification words it *)

(** The number that a text of decimal digits denotes: each digit weighs ten
    times the one after it. *)
Fixpoint decimal_value (s : string) : Z :=
  match s with
  | EmptyString => 0%Z
  | String c s' =>
      (digit_val c * 10 ^ Z.of_nat (String.length s') + decimal_value s')%Z
  end.

(** The quantity of a FeedRecord and the stock it stands for: the token for
    "more than ten" is 100, the token for "exactly one, held in reserve" is
    0, and an exact integer text is the integer it writes. *)
Inductive spec_quantity : string -> Z -> Prop :=
| quantity_more_than_ten : spec_quantity ">10" 100%Z
| quantity_reserved_one : spec_quantity "1" 0%Z
| quantity_exact (q : string) :
    all_digits q = true -> q <> EmptyString -> q <> "1" ->
    (N.of_nat (String.length q) <= max_str_digits)%N ->
    spec_quantity q (decimal_value q).

(** ** Listings that fail on a later page *)

(** The tokens of the requests made for the pages [pages] and for the one
    after them. *)
Fixpoint seller_request_tokens (tok : string) (pages : list Seller.listing)
  : list string :=
  match pages with
  | [] => [tok]
  | p :: rest => tok :: seller_request_tokens (Seller.last_id p) rest
  end.

(** From the token [tok] on, with [n] products collected so far, the server
    serves the pages [pages], none of which ends the loop of
    [get_offer_ids] (the total it reports is not the number of products
    collected with it), and answers the request after them with an error
    status. *)
Fixpoint seller_fails_after (srv : Seller.server) (tok : string) (n : nat)
    (pages : list Seller.listing) : Prop :=
  match pages with
  | [] =>
      forall tr,
        (400 <= Seller.status_code (srv tr (Seller.ProductList tok)) < 600)%Z
  | p :: rest =>
      (forall tr,
          (200 <= Seller.status_code (srv tr (Seller.ProductList tok)) < 300)%Z /\
          Seller.content (srv tr (Seller.ProductList tok)) = Seller.JSON (Some p)) /\
      Seller.total p <> Z.of_nat (n + List.length (Seller.items p)) /\
      seller_fails_after srv (Seller.last_id p)
        (n + List.length (Seller.items p)) rest
  end.

Fixpoint market_request_tokens (tok : string) (pages : list Market.listing)
  : list string :=
  match pages with
  | [] => [tok]
  | p :: rest => tok :: market_request_tokens (Market.next_token p) rest
  end.

(** From the token [tok] on the server serves the pages [pages], each with a
    token for a further page, and answers the request after them with an
    error status. *)
Fixpoint market_fails_after (srv : Market.server) (tok : string)
    (pages : list Market.listing) : Prop :=
  match pages with
  | [] =>
      forall tr,
        (400 <= Market.status_code (srv tr (Market.ProductList tok)) < 600)%Z
  | p :: rest =>
      (forall tr,
          (200 <= Market.status_code (srv tr (Market.ProductList tok)) < 300)%Z /\
          Market.content (srv tr (Market.ProductList tok)) = Market.JSON (Some p)) /\
      Market.token_falsy (Market.nextPageToken (Market.paging p)) = false /\
      market_fails_after srv (Market.next_token p) rest
  end.

(** A server that serves the first page of the two-page listing and answers
    every other listing request with status 500. *)
Definition seller_mock_fail_later : Seller.server :=
  fun tr req =>
    match req with
    | Seller.ProductList tok =>
        if String.eqb tok EmptyString then seller_mock tr req
        else {| Seller.status_code := 500; Seller.content := Seller.NotJSON |}
    | _ => seller_mock tr req
    end.

Definition market_mock_fail_later : Market.server :=
  fun tr req =>
    match req with
    | Market.ProductList tok =>
        if String.eqb tok EmptyString then market_mock tr req
        else {| Market.status_code := 500; Market.content := Market.NotJSON |}
    | _ => market_mock tr req
    end.

(** ** A catalogue of three chunks *)

(** The identifiers "000" to "200". *)
Definition many_ids : list string := map (zero_pad 3) (seq 0 201).

Definition many_page : Seller.listing :=
  {| Seller.items := map (fun x => {| Seller.product_offer_id := x |}) many_ids;
     Seller.total := 201;
     Seller.last_id := EmptyString |}.

(** The zero-stock updates of the [n] identifiers from number [a] on. *)
Definition zero_chunk (a n : nat) : list Seller.stock_update :=
  map zero_stock (map (zero_pad 3) (seq a n)).

(** A server that lists [many_ids] on one page, answers the upload of the
    chunk that starts with the identifier "100" with status 500 and accepts
    every other upload. *)
Definition seller_mock_reject_second : Seller.server :=
  fun _ req =>
    match req with
    | Seller.ProductList _ =>
        {| Seller.status_code := 200;
           Seller.content := Seller.JSON (Some many_page) |}
    | Seller.UpdateStocks (u :: _) =>
        if String.eqb (Seller.offer_id u) "100"
        then {| Seller.status_code := 500; Seller.content := Seller.NotJSON |}
        else {| Seller.status_code := 200; Seller.content := Seller.JSON None |}
    | _ => {| Seller.status_code := 200; Seller.content := Seller.JSON None |}
    end.

(** ** The price text as the specification words it *)

(** The prefix of [s] before its first decimal point (all of [s] when it has
    none). *)
Fixpoint prefix_before_dot (s : string) : string :=
  match s with
  | EmptyString => EmptyString
  | String c s' =>
      if Ascii.eqb c "." then EmptyString else String c (prefix_before_dot s')
  end.

(** [ceil(a / b)] *)
Definition ceil_div (a b : nat) : nat := (a + b - 1) / b.

(** * Facts *)

(** ** Price normalisation *)

Lemma split_on_nonempty (sep : ascii) (s : string) : split_on sep s <> [].
Proof.
  destruct s as [|c s]; simpl; [discriminate|].
  destruct (Ascii.eqb c sep); [discriminate|].
  destruct (split_on sep s); discriminate.
Qed.

Lemma split_dot_0_prefix (s : string) : split_dot_0 s = prefix_before_dot s.
Proof.
  unfold split_dot_0.
  induction s as [|c s IH]; simpl; [reflexivity|].
  destruct (Ascii.eqb c "."); [reflexivity|].
  destruct (split_on "." s) as [|p ps] eqn:E.
  - exfalso; exact (split_on_nonempty _ _ E).
  - now rewrite IH.
Qed.

Lemma prefix_before_dot_no_dot (s : string) :
  has_char "." (prefix_before_dot s) = false.
Proof.
  induction s as [|c s IH]; simpl; [reflexivity|].
  destruct (Ascii.eqb c ".") eqn:E; simpl; [reflexivity|].
  now rewrite E.
Qed.

Lemma prefix_before_dot_split (s : string) :
  s = prefix_before_dot s \/
  exists post, s = (prefix_before_dot s ++ String "." post)%string.
Proof.
  induction s as [|c s IH]; simpl; [now left|].
  destruct (Ascii.eqb c ".") eqn:E.
  - right. exists s. apply Ascii.eqb_eq in E. now subst.
  - destruct IH as [IH|[post IH]].
    + left. now rewrite <- IH.
    + right. exists post. simpl. now rewrite <- IH.
Qed.

Lemma prefix_before_dot_id (s : string) :
  has_char "." s = false -> prefix_before_dot s = s.
Proof.
  induction s as [|c s IH]; simpl; [reflexivity|].
  destruct (Ascii.eqb c "."); simpl; [discriminate|].
  intros H. now rewrite IH.
Qed.

Lemma sub_non_digits_id (s : string) :
  all_digits s = true -> sub_non_digits s = s.
Proof.
  induction s as [|c s IH]; simpl; [reflexivity|].
  intros H. apply andb_true_iff in H as [Hc Hs].
  rewrite Hc. now rewrite IH.
Qed.

Lemma sub_non_digits_filter (s : string) :
  sub_non_digits s =
  string_of_list_ascii (filter is_digit (list_ascii_of_string s)).
Proof.
  induction s as [|c s IH]; simpl; [reflexivity|].
  destruct (is_digit c); simpl; now rewrite IH.
Qed.

Lemma sub_non_digits_all_digits (s : string) :
  all_digits (sub_non_digits s) = true.
Proof.
  induction s as [|c s IH]; simpl; [reflexivity|].
  destruct (is_digit c) eqn:E; simpl; [now rewrite E|assumption].
Qed.

Lemma all_digits_no_dot (s : string) :
  all_digits s = true -> has_char "." s = false.
Proof.
  induction s as [|c s IH]; simpl; [reflexivity|].
  intros H. apply andb_true_iff in H as [Hc Hs].
  rewrite (IH Hs), orb_false_r.
  destruct (Ascii.eqb c ".") eqn:E; [|reflexivity].
  apply Ascii.eqb_eq in E. subst c. discriminate.
Qed.

(** C5.  [price_conversion] maps "5'990.00 руб." to "5990" and "1234" to
    "1234"; text made of digits only, with no decimal point, is returned
    unchanged; and for every text the result is the prefix before the first
    decimal point with every character that is not a digit removed. *)
Theorem price_conversion_spec :
  price_conversion "5'990.00 руб." = "5990" /\
  price_conversion "1234" = "1234" /\
  (forall s, all_digits s = true -> has_char "." s = false ->
             price_conversion s = s) /\
  (forall s,
      (s = prefix_before_dot s \/
       exists post, s = (prefix_before_dot s ++ String "." post)%string) /\
      has_char "." (prefix_before_dot s) = false /\
      price_conversion s =
        string_of_list_ascii
          (filter is_digit (list_ascii_of_string (prefix_before_dot s)))).
Proof.
  split; [reflexivity|]. split; [reflexivity|]. split.
  - intros s Hd Hn. unfold price_conversion.
    rewrite split_dot_0_prefix, (prefix_before_dot_id _ Hn).
    now apply sub_non_digits_id.
  - intros s. split; [apply prefix_before_dot_split|].
    split; [apply prefix_before_dot_no_dot|].
    unfold price_conversion.
    now rewrite split_dot_0_prefix, sub_non_digits_filter.
Qed.

Lemma price_conversion_spec_witness :
  all_digits "42" = true /\ has_char "." "42" = false /\
  price_conversion "42" = "42".
Proof.
  split; [reflexivity|]. split; [reflexivity|].
  apply (proj1 (proj2 (proj2 price_conversion_spec)) "42"); reflexivity.
Defined.

(** ** Integer text *)

Lemma is_digit_facts (c : ascii) :
  is_digit c = true ->
  is_space c = false /\ Ascii.eqb c "-" = false /\ Ascii.eqb c "+" = false /\
  Ascii.eqb c "_" = false /\ (0 <= digit_val c <= 9)%Z.
Proof.
  destruct c as [[] [] [] [] [] [] [] []]; intros H;
    try discriminate H; repeat split; try reflexivity; unfold digit_val; simpl; lia.
Qed.

Lemma is_digit_code_point (c : ascii) :
  is_digit c = true -> ascii_of_code_point (N_of_ascii c) = Some c.
Proof.
  destruct c as [[] [] [] [] [] [] [] []]; intros H;
    try discriminate H; reflexivity.
Qed.

Lemma is_digit_ascii (c : ascii) :
  is_digit c = true -> (N_of_ascii c <? 128)%N = true.
Proof.
  destruct c as [[] [] [] [] [] [] [] []]; intros H;
    try discriminate H; reflexivity.
Qed.

Lemma digits_to_ascii (s : string) :
  all_digits s = true ->
  exists cps, utf8_decode s = Some cps /\
              decimal_and_space_to_ascii cps = Some s.
Proof.
  induction s as [|c s IH]; intros H.
  - now exists [].
  - cbn [all_digits] in H. apply andb_true_iff in H as [Hc Hs].
    destruct (IH Hs) as [cps [Hdec Hasc]].
    exists (N_of_ascii c :: cps). cbn [utf8_decode].
    rewrite (is_digit_ascii c Hc), Hdec. split; [reflexivity|].
    cbn [decimal_and_space_to_ascii].
    now rewrite (is_digit_code_point c Hc), Hasc.
Qed.

Lemma rstrip_digits (s : string) : all_digits s = true -> rstrip s = s.
Proof.
  induction s as [|c s IH]; simpl; [reflexivity|].
  intros H. apply andb_true_iff in H as [Hc Hs]. rewrite (IH Hs).
  destruct s; [|reflexivity].
  destruct (is_digit_facts c Hc) as [-> _]. reflexivity.
Qed.

Lemma int_digits_digits (s : string) :
  forall acc prev,
    all_digits s = true -> (s <> EmptyString \/ prev = true) -> (0 <= acc)%Z ->
    exists z, int_digits s acc prev = Some z /\ (0 <= z)%Z.
Proof.
  induction s as [|c s IH]; intros acc prev Hd Hne Hacc; cbn [int_digits].
  - destruct Hne as [Hne| ->]; [congruence|]. now exists acc.
  - simpl in Hd. apply andb_true_iff in Hd as [Hc Hs]. rewrite Hc.
    apply IH; [assumption|now right|].
    destruct (is_digit_facts c Hc) as (_ & _ & _ & _ & Hv). lia.
Qed.

(** On text made of ASCII digits [int] is the digit loop, unless the digits
    are too many. *)
Lemma int_of_text_digits (s : string) :
  all_digits s = true ->
  int_of_text s =
  if (max_str_digits <? digit_count s)%N then None else int_digits s 0 false.
Proof.
  intros Hd. unfold int_of_text.
  destruct (digits_to_ascii s Hd) as [cps [-> ->]].
  unfold int_of_ascii. rewrite (rstrip_digits _ Hd).
  destruct s as [|c s]; [reflexivity|].
  pose proof Hd as Hd'. cbn [all_digits] in Hd'.
  apply andb_true_iff in Hd' as [Hc Hs].
  destruct (is_digit_facts c Hc) as (Hsp & Hm & Hp & _).
  cbn [lstrip]. rewrite Hsp.
  destruct c as [[] [] [] [] [] [] [] []]; try discriminate Hm;
    try discriminate Hp; reflexivity.
Qed.

Lemma digit_count_digits (s : string) :
  all_digits s = true -> digit_count s = N.of_nat (String.length s).
Proof.
  induction s as [|c s IH]; intros H; [reflexivity|].
  cbn [all_digits] in H. apply andb_true_iff in H as [Hc Hs].
  cbn [digit_count String.length]. rewrite Hc, (IH Hs). lia.
Qed.

Lemma int_digits_value (s : string) :
  forall acc prev,
    all_digits s = true -> (s <> EmptyString \/ prev = true) ->
    int_digits s acc prev =
    Some (acc * 10 ^ Z.of_nat (String.length s) + decimal_value s)%Z.
Proof.
  induction s as [|c s IH]; intros acc prev Hd Hne.
  - destruct Hne as [Hne| ->]; [congruence|].
    cbn [int_digits String.length decimal_value]. f_equal.
    rewrite Z.pow_0_r. lia.
  - cbn [all_digits] in Hd. apply andb_true_iff in Hd as [Hc Hs].
    cbn [int_digits]. rewrite Hc, (IH _ true Hs (or_intror eq_refl)).
    cbn [String.length decimal_value]. f_equal.
    rewrite Nat2Z.inj_succ, Z.pow_succ_r by lia. ring.
Qed.

(** The quantity rule of the code gives every quantity text the stock the
    specification's words give it. *)
Lemma spec_quantity_sound (q : string) (z : Z) :
  spec_quantity q z -> stock_of_quantity (PyStr q) = Ok z.
Proof.
  intros [| |q' Hd Hne H1 Hlen]; [reflexivity|reflexivity|].
  unfold stock_of_quantity. cbn [py_str].
  destruct (String.eqb_spec q' ">10") as [->|_]; [discriminate Hd|].
  destruct (String.eqb_spec q' "1") as [->|_]; [congruence|].
  cbn [py_int]. rewrite (int_of_text_digits _ Hd), (digit_count_digits _ Hd).
  destruct (N.ltb_spec max_str_digits (N.of_nat (String.length q'))); [lia|].
  rewrite (int_digits_value _ 0 false Hd (or_introl Hne)).
  reflexivity.
Qed.

(** ** Chunking *)

Section Divide.
Context {A : Type}.
Variable lst : list A.
Variable n : nat.
Hypothesis n_pos : 0 < n.

Let chunk (i : nat) : list A := slice lst i (i + n).
Let len : nat := List.length lst.

Lemma slice_chunk (i : nat) : chunk i = firstn n (skipn i lst).
Proof. unfold chunk, slice. f_equal. lia. Qed.

Lemma range_from_concat (fuel start : nat) :
  len - start <= fuel ->
  List.concat (map chunk (range_from fuel start len n)) = skipn start lst.
Proof.
  revert start. induction fuel as [|fuel IH]; intros start Hf; simpl.
  - symmetry. apply skipn_all2. subst len. lia.
  - destruct (Nat.ltb_spec start len) as [Hlt|Hge]; simpl.
    + rewrite IH by lia. rewrite slice_chunk.
      rewrite (Nat.add_comm start n), <- skipn_skipn.
      apply firstn_skipn.
    + symmetry. apply skipn_all2. subst len. lia.
Qed.

Lemma range_from_length (fuel start : nat) :
  len - start <= fuel ->
  len - start <= List.length (range_from fuel start len n) * n < len - start + n.
Proof.
  revert start. induction fuel as [|fuel IH]; intros start Hf; simpl.
  - lia.
  - destruct (Nat.ltb_spec start len) as [Hlt|Hge]; simpl; [|lia].
    specialize (IH (start + n) ltac:(lia)).
    destruct (Nat.le_gt_cases (start + n) len) as [Hle|Hgt]; [lia|].
    assert (List.length (range_from fuel (start + n) len n) = 0) as -> by nia.
    lia.
Qed.

Lemma range_from_full_chunks (fuel start i : nat) :
  S i < List.length (range_from fuel start len n) ->
  List.length (nth i (map chunk (range_from fuel start len n)) []) = n.
Proof.
  revert start i. induction fuel as [|fuel IH]; intros start i; simpl; [lia|].
  destruct (Nat.ltb_spec start len) as [Hlt|Hge]; simpl; [|lia].
  intros Hi. destruct i as [|i].
  - rewrite slice_chunk, length_firstn, length_skipn.
    destruct fuel as [|fuel]; simpl in Hi; [lia|].
    destruct (Nat.ltb_spec (start + n) len); simpl in Hi; subst len; lia.
  - apply IH. lia.
Qed.

Lemma range_from_chunk_bounds (fuel start : nat) :
  Forall (fun c => 0 < List.length c <= n) (map chunk (range_from fuel start len n)).
Proof.
  revert start. induction fuel as [|fuel IH]; intros start; simpl; [constructor|].
  destruct (Nat.ltb_spec start len) as [Hlt|Hge]; simpl; constructor; [|apply IH].
  rewrite slice_chunk, length_firstn, length_skipn. subst len. lia.
Qed.
End Divide.

Lemma ceil_div_unique (a b k : nat) :
  0 < b -> a <= k * b < a + b -> ceil_div a b = k.
Proof.
  intros Hb [H1 H2]. unfold ceil_div. symmetry.
  apply (Nat.div_unique _ _ _ (a + b - 1 - k * b)); lia.
Qed.

(** C6.  For a positive [n], [divide lst n] yields [ceil(len(lst)/n)] chunks
    whose concatenation, in yield order, is [lst]; every chunk but the last
    has exactly [n] elements, and every chunk has between 1 and [n]. *)
Theorem divide_partition (A : Type) (lst : list A) (n : nat) :
  0 < n ->
  exists chunks,
    divide lst n = Ok chunks /\
    List.length chunks = ceil_div (List.length lst) n /\
    List.length lst <= List.length chunks * n < List.length lst + n /\
    List.concat chunks = lst /\
    (forall i, S i < List.length chunks -> List.length (nth i chunks []) = n) /\
    Forall (fun c => 0 < List.length c <= n) chunks.
Proof.
  intros Hn. unfold divide, py_range.
  destruct (Nat.eqb_spec n 0) as [->|_]; [lia|]. simpl.
  eexists; split; [reflexivity|]. rewrite Nat.sub_0_r.
  pose proof (range_from_length lst n Hn (List.length lst) 0 ltac:(lia)) as Hlen.
  rewrite Nat.sub_0_r in Hlen.
  split; [|split; [|split; [|split]]].
  - rewrite length_map. symmetry. now apply ceil_div_unique.
  - now rewrite length_map.
  - now rewrite (range_from_concat lst n Hn) by lia.
  - intros i. rewrite length_map. now apply range_from_full_chunks.
  - now apply range_from_chunk_bounds.
Qed.

Lemma divide_partition_witness :
  exists chunks,
    divide [1; 2; 3; 4; 5; 6; 7] 3 = Ok chunks /\
    List.length chunks = ceil_div 7 3 /\
    7 <= List.length chunks * 3 < 7 + 3 /\
    List.concat chunks = [1; 2; 3; 4; 5; 6; 7] /\
    (forall i, S i < List.length chunks -> List.length (nth i chunks []) = 3) /\
    Forall (fun c => 0 < List.length c <= 3) chunks.
Proof. apply (divide_partition nat [1; 2; 3; 4; 5; 6; 7] 3). lia. Defined.

(** ** Python list operations *)

Lemma py_in_In (x : string) (l : list string) : py_in x l = true <-> In x l.
Proof.
  unfold py_in. rewrite existsb_exists. split.
  - intros [y [Hy E]]. apply String.eqb_eq in E. now subst.
  - intros H. exists x. split; [assumption|apply String.eqb_refl].
Qed.

Lemma py_in_not_In (x : string) (l : list string) : py_in x l = false <-> ~ In x l.
Proof.
  rewrite <- py_in_In. destruct (py_in x l); split; congruence.
Qed.

Lemma py_remove_Ok (x : string) (l : list string) :
  py_in x l = true -> py_remove x l = Ok (remove_first x l).
Proof. unfold py_remove. now intros ->. Qed.

Lemma remove_first_perm (x : string) (l : list string) :
  In x l -> Permutation (x :: remove_first x l) l.
Proof.
  induction l as [|y l IH]; simpl; [tauto|].
  destruct (String.eqb_spec x y) as [->|Hne]; [reflexivity|].
  intros [H|H]; [congruence|].
  rewrite perm_swap. now rewrite IH.
Qed.

Lemma remove_first_Subseq (x : string) (l : list string) :
  Subseq (remove_first x l) l.
Proof.
  induction l as [|y l IH]; simpl; [constructor|].
  destruct (String.eqb x y).
  - constructor. clear. induction l; now constructor.
  - now constructor.
Qed.

Lemma Subseq_refl {A} (l : list A) : Subseq l l.
Proof. induction l; now constructor. Qed.

Lemma Subseq_trans {A} (l1 l2 l3 : list A) :
  Subseq l1 l2 -> Subseq l2 l3 -> Subseq l1 l3.
Proof.
  intros H12 H23. revert l1 H12.
  induction H23 as [|x l2 l3 H IH|x l2 l3 H IH]; intros l1 H12.
  - assumption.
  - constructor. now apply IH.
  - inversion H12; subst.
    + apply Subseq_skip. now apply IH.
    + apply Subseq_keep. now apply IH.
Qed.

Lemma Subseq_In {A} (l1 l2 : list A) (x : A) :
  Subseq l1 l2 -> In x l1 -> In x l2.
Proof.
  induction 1; simpl; intuition.
Qed.


Lemma Subseq_map {A B} (f : A -> B) (l1 l2 : list A) :
  Subseq l1 l2 -> Subseq (map f l1) (map f l2).
Proof. induction 1; simpl; now constructor. Qed.

Lemma remove_first_not_In (x : string) (l : list string) :
  NoDup l -> ~ In x (remove_first x l).
Proof.
  induction 1 as [|y l Hy Hl IH]; simpl; [tauto|].
  destruct (String.eqb_spec x y) as [->|Hne]; [assumption|].
  simpl. intuition.
Qed.

Lemma remove_first_NoDup (x : string) (l : list string) :
  NoDup l -> NoDup (remove_first x l).
Proof.
  induction 1 as [|y l Hy Hl IH]; simpl; [constructor|].
  destruct (String.eqb x y); [assumption|].
  constructor; [|assumption].
  intros H. apply Hy. eapply Subseq_In; [apply remove_first_Subseq|eassumption].
Qed.

Lemma remove_first_filter (x : string) (l : list string) :
  NoDup l ->
  remove_first x l = filter (fun y => negb (String.eqb x y)) l.
Proof.
  induction 1 as [|y l Hy Hl IH]; simpl; [reflexivity|].
  destruct (String.eqb_spec x y) as [->|Hne]; simpl; [|now rewrite IH].
  symmetry. apply forallb_filter_id. apply forallb_forall.
  intros z Hz. destruct (String.eqb_spec y z); [congruence|reflexivity].
Qed.

Lemma fold_left_append {A B} (f : A -> B) (l : list A) (acc : list B) :
  fold_left (fun acc x => acc ++ [f x]) l acc = acc ++ map f l.
Proof.
  revert acc. induction l as [|x l IH]; intros acc; simpl.
  - now rewrite app_nil_r.
  - rewrite IH, <- app_assoc. reflexivity.
Qed.

(** ** The first loop of [create_stocks] *)

Lemma stocks_loop_acc (F : list watch) (acc : list Seller.stock_update)
    (I : list string) :
  Seller.stocks_loop F acc I =
  ' (st, rem) <- Seller.stocks_loop F [] I ;; Ok (acc ++ st, rem).
Proof.
  revert acc I. induction F as [|w F IH]; intros acc I; simpl.
  - now rewrite app_nil_r.
  - destruct (py_in (py_str (code w)) I); [|apply IH].
    destruct (stock_of_quantity (quantity w)) as [s|e]; simpl; [|reflexivity].
    destruct (py_remove (py_str (code w)) I) as [I'|e]; simpl; [|reflexivity].
    rewrite IH. rewrite (IH [_]).
    destruct (Seller.stocks_loop F [] I') as [[st rem]|e]; simpl; [|reflexivity].
    now rewrite <- app_assoc.
Qed.

Lemma stocks_loop_skip (w : watch) (F : list watch) (I : list string) :
  py_in (code_text w) I = false ->
  Seller.stocks_loop (w :: F) [] I = Seller.stocks_loop F [] I.
Proof. unfold code_text. simpl. now intros ->. Qed.

Lemma stocks_loop_match (w : watch) (F : list watch) (I : list string) :
  py_in (code_text w) I = true ->
  Seller.stocks_loop (w :: F) [] I =
  s <- stock_of_quantity (quantity w) ;;
  ' (st, rem) <- Seller.stocks_loop F [] (remove_first (code_text w) I) ;;
  Ok ({| Seller.offer_id := code_text w; Seller.stock := s |} :: st, rem).
Proof.
  unfold code_text. simpl. intros H. rewrite H, (py_remove_Ok _ _ H).
  destruct (stock_of_quantity (quantity w)) as [s|e]; simpl; [|reflexivity].
  now rewrite stocks_loop_acc.
Qed.

(** What one step of the loop leaves to prove, by cases on whether the
    record matches the working list. *)
Ltac loop_step w I H :=
  destruct (py_in (code_text w) I) eqn:Hin;
  [ rewrite (stocks_loop_match _ _ _ Hin) in H;
    destruct (stock_of_quantity (quantity w)) as [s|e] eqn:Hs;
    simpl in H; [|discriminate];
    destruct (Seller.stocks_loop _ [] (remove_first (code_text w) I))
      as [[st' rem']|e] eqn:Hloop; simpl in H; [|discriminate];
    injection H as <- <-
  | rewrite (stocks_loop_skip _ _ _ Hin) in H ].

Lemma stocks_loop_perm (F : list watch) (I : list string) st rem :
  Seller.stocks_loop F [] I = Ok (st, rem) ->
  Permutation (map Seller.offer_id st ++ rem) I.
Proof.
  revert I st rem. induction F as [|w F IH]; intros I st rem H.
  - simpl in H. injection H as <- <-. reflexivity.
  - loop_step w I H.
    + simpl. rewrite (IH _ _ _ Hloop).
      apply remove_first_perm. now apply py_in_In.
    + now apply IH.
Qed.

Lemma stocks_loop_rem_Subseq (F : list watch) (I : list string) st rem :
  Seller.stocks_loop F [] I = Ok (st, rem) -> Subseq rem I.
Proof.
  revert I st rem. induction F as [|w F IH]; intros I st rem H.
  - simpl in H. injection H as <- <-. apply Subseq_refl.
  - loop_step w I H.
    + eapply Subseq_trans; [eapply IH; eassumption|apply remove_first_Subseq].
    + eapply IH; eassumption.
Qed.

Lemma stocks_loop_from_feed (F : list watch) (I : list string) st rem :
  Seller.stocks_loop F [] I = Ok (st, rem) ->
  exists ws, Subseq ws F /\ Forall2 stock_from ws st.
Proof.
  revert I st rem. induction F as [|w F IH]; intros I st rem H.
  - simpl in H. injection H as <- <-. exists []. split; constructor.
  - loop_step w I H.
    + destruct (IH _ _ _ Hloop) as [ws [Hsub Hall]].
      exists (w :: ws). split; [now apply Subseq_keep|].
      constructor; [|assumption]. split; [reflexivity|assumption].
    + destruct (IH _ _ _ H) as [ws [Hsub Hall]].
      exists ws. split; [now apply Subseq_skip|assumption].
Qed.

Lemma stocks_loop_total (F : list watch) (I : list string) :
  Forall (fun w => feed_record_ok w = true) F ->
  exists st rem, Seller.stocks_loop F [] I = Ok (st, rem).
Proof.
  intros HF. revert I. induction HF as [|w F Hw HF IH]; intros I.
  - simpl. eauto.
  - destruct (py_in (code_text w) I) eqn:Hin.
    + rewrite (stocks_loop_match _ _ _ Hin).
      unfold feed_record_ok in Hw. apply andb_true_iff in Hw as [Hq _].
      destruct (stock_of_quantity (quantity w)) as [s|e]; [|discriminate].
      destruct (IH (remove_first (code_text w) I)) as [st [rem ->]].
      simpl. eauto.
    + rewrite (stocks_loop_skip _ _ _ Hin). apply IH.
Qed.

Lemma py_in_cons (x y : string) (l : list string) :
  py_in x (y :: l) = String.eqb x y || py_in x l.
Proof. reflexivity. Qed.

Lemma filter_filter {A} (f g : A -> bool) (l : list A) :
  filter f (filter g l) = filter (fun x => g x && f x) l.
Proof.
  induction l as [|x l IH]; simpl; [reflexivity|].
  destruct (g x); simpl; [destruct (f x)|]; now rewrite IH.
Qed.

Lemma stocks_loop_rem_filter (F : list watch) (I : list string) st rem :
  NoDup I ->
  Seller.stocks_loop F [] I = Ok (st, rem) ->
  rem = filter (fun x => negb (py_in x (map code_text F))) I.
Proof.
  revert I st rem. induction F as [|w F IH]; intros I st rem HI H.
  - simpl in H. injection H as <- <-. simpl.
    symmetry. apply forallb_filter_id. now apply forallb_forall.
  - loop_step w I H.
    + rewrite (IH _ _ _ (remove_first_NoDup _ _ HI) Hloop).
      rewrite (remove_first_filter _ _ HI), filter_filter.
      apply filter_ext. intros x. simpl map. rewrite py_in_cons.
      rewrite (String.eqb_sym x). now rewrite negb_orb.
    + rewrite (IH _ _ _ HI H). apply filter_ext_in. intros x Hx.
      simpl map. rewrite py_in_cons.
      destruct (String.eqb_spec x (code_text w)) as [->|_]; [|reflexivity].
      apply py_in_not_In in Hin. contradiction.
Qed.

Lemma feed_quantity_cons_ne (w : watch) (F : list watch) (x : string) :
  code_text w <> x -> feed_quantity (w :: F) x = feed_quantity F x.
Proof.
  intros Hne. unfold feed_quantity. simpl.
  destruct (String.eqb_spec (code_text w) x); [contradiction|reflexivity].
Qed.

Lemma feed_quantity_cons_eq (w : watch) (F : list watch) :
  feed_quantity (w :: F) (code_text w) = stock_of_quantity (quantity w).
Proof.
  unfold feed_quantity. simpl. now rewrite String.eqb_refl.
Qed.

Lemma feed_quantity_absent (F : list watch) (x : string) :
  ~ In x (map code_text F) -> feed_quantity F x = Ok 0%Z.
Proof.
  intros Hx. unfold feed_quantity.
  destruct (find _ F) as [w|] eqn:E; [|reflexivity].
  apply find_some in E as [Hw E]. apply String.eqb_eq in E. subst x.
  exfalso. apply Hx. now apply in_map.
Qed.

Lemma stocks_loop_ids_in (F : list watch) (I : list string) st rem x :
  Seller.stocks_loop F [] I = Ok (st, rem) ->
  In x (map Seller.offer_id st) -> In x I.
Proof.
  intros H Hx. apply (Permutation_in x (stocks_loop_perm _ _ _ _ H)).
  apply in_or_app. now left.
Qed.

Lemma stocks_loop_quantity (F : list watch) (I : list string) st rem :
  NoDup I ->
  Seller.stocks_loop F [] I = Ok (st, rem) ->
  Forall (fun u => feed_quantity F (Seller.offer_id u) = Ok (Seller.stock u)) st.
Proof.
  revert I st rem. induction F as [|w F IH]; intros I st rem HI H.
  - simpl in H. injection H as <- <-. constructor.
  - loop_step w I H.
    + constructor.
      * simpl. now rewrite feed_quantity_cons_eq.
      * pose proof (IH _ _ _ (remove_first_NoDup _ _ HI) Hloop) as Hst.
        rewrite Forall_forall in *. intros u Hu.
        rewrite feed_quantity_cons_ne; [now apply Hst|].
        intros Heq. apply (remove_first_not_In (code_text w) I HI).
        apply (stocks_loop_ids_in _ _ _ _ _ Hloop).
        rewrite Heq. now apply in_map.
    + pose proof (IH _ _ _ HI H) as Hst.
      rewrite Forall_forall in *. intros u Hu.
      rewrite feed_quantity_cons_ne; [now apply Hst|].
      intros Heq. apply py_in_not_In in Hin. apply Hin.
      apply (stocks_loop_ids_in _ _ _ _ _ H).
      rewrite Heq. now apply in_map.
Qed.

Lemma create_stocks_unfold (F : list watch) (I : list string) :
  Seller.create_stocks F I =
  ' (st, rem) <- Seller.stocks_loop F [] I ;; Ok (st ++ map zero_stock rem, rem).
Proof.
  unfold Seller.create_stocks.
  destruct (Seller.stocks_loop F [] I) as [[st rem]|e]; simpl; [|reflexivity].
  now rewrite (fold_left_append zero_stock).
Qed.

Lemma count_of_remove_first_eq (x : string) (l : list string) :
  In x l -> S (count_of x (remove_first x l)) = count_of x l.
Proof.
  intros H. unfold count_of.
  rewrite <- (proj1 (Permutation_count_occ string_dec _ _)
                (remove_first_perm x l H) x).
  simpl. now destruct (string_dec x x).
Qed.

Lemma count_of_remove_first_ne (x y : string) (l : list string) :
  x <> y -> count_of x (remove_first y l) = count_of x l.
Proof.
  intros Hne. unfold count_of. induction l as [|z l IH]; simpl; [reflexivity|].
  destruct (String.eqb_spec y z) as [->|Hyz].
  - destruct (string_dec z x); [congruence|reflexivity].
  - simpl. now rewrite IH.
Qed.

Lemma count_of_In (x : string) (l : list string) :
  In x l <-> 0 < count_of x l.
Proof. unfold count_of. apply count_occ_In. Qed.

Lemma stocks_loop_quantity_at (F : list watch) (I : list string) st rem x :
  count_of x I <= 1 ->
  Seller.stocks_loop F [] I = Ok (st, rem) ->
  forall u, In u st -> Seller.offer_id u = x ->
            feed_quantity F x = Ok (Seller.stock u).
Proof.
  revert I st rem. induction F as [|w F IH]; intros I st rem HI H u Hu Hx.
  - simpl in H. injection H as <- <-. destruct Hu.
  - loop_step w I H.
    + apply py_in_In in Hin.
      destruct (string_dec (code_text w) x) as [Heq|Hne].
      * rewrite <- Heq in *. clear Heq. destruct Hu as [<-|Hu].
        -- simpl. now rewrite feed_quantity_cons_eq.
        -- exfalso.
           pose proof (count_of_remove_first_eq _ _ Hin) as Hc.
           assert (In (code_text w) (remove_first (code_text w) I)) as Hr.
           { apply (stocks_loop_ids_in _ _ _ _ _ Hloop).
             rewrite <- Hx. now apply in_map. }
           apply count_of_In in Hr. lia.
      * destruct Hu as [<-|Hu]; [simpl in Hx; congruence|].
        rewrite (feed_quantity_cons_ne _ _ _ Hne).
        refine (IH _ _ _ _ Hloop u Hu Hx).
        rewrite count_of_remove_first_ne; [assumption|congruence].
    + destruct (string_dec (code_text w) x) as [Heq|Hne].
      * exfalso. apply py_in_not_In in Hin. apply Hin. rewrite Heq, <- Hx.
        apply (stocks_loop_ids_in _ _ _ _ _ H). now apply in_map.
      * rewrite (feed_quantity_cons_ne _ _ _ Hne). now apply (IH _ _ _ HI H).
Qed.


(** ** [create_prices] *)

Lemma prices_loop_acc (F : list watch) (acc : list Seller.price_update)
    (I : list string) :
  Seller.prices_loop F acc I =
  ps <- Seller.prices_loop F [] I ;; Ok (acc ++ ps).
Proof.
  revert acc. induction F as [|w F IH]; intros acc; simpl.
  - now rewrite app_nil_r.
  - destruct (py_in (py_str (code w)) I); [|apply IH].
    destruct (price_conversion_val (price w)) as [p|e]; simpl; [|reflexivity].
    rewrite IH, (IH [_]).
    destruct (Seller.prices_loop F [] I) as [ps|e]; simpl; [|reflexivity].
    now rewrite <- app_assoc.
Qed.

Lemma create_prices_from_feed (F : list watch) (I : list string) ps :
  Seller.create_prices F I = Ok ps -> Forall2 price_from (listed I F) ps.
Proof.
  unfold Seller.create_prices, listed.
  revert ps. induction F as [|w F IH]; intros ps H; simpl in *.
  - injection H as <-. constructor.
  - fold (code_text w) in H. destruct (py_in (code_text w) I); [|now apply IH].
    destruct (price w) as [| |s] eqn:Hp; simpl in H; try discriminate.
    rewrite prices_loop_acc in H.
    destruct (Seller.prices_loop F [] I) as [ps'|e]; simpl in H; [|discriminate].
    injection H as <-. constructor; [|now apply IH].
    exists s. split; [assumption|reflexivity].
Qed.

Lemma create_prices_total (F : list watch) (I : list string) :
  Forall (fun w => feed_record_ok w = true) F ->
  exists ps, Seller.create_prices F I = Ok ps.
Proof.
  unfold Seller.create_prices.
  induction 1 as [|w F Hw HF IH]; simpl; [eauto|].
  destruct (py_in (py_str (code w)) I); [|assumption].
  unfold feed_record_ok in Hw. apply andb_true_iff in Hw as [_ Hp].
  destruct (price w); try discriminate. simpl.
  rewrite prices_loop_acc. destruct IH as [ps ->]. simpl. eauto.
Qed.

Lemma price_from_ids (ws : list watch) (ps : list Seller.price_update) :
  Forall2 price_from ws ps -> map Seller.price_offer_id ps = map code_text ws.
Proof.
  induction 1 as [|w p ws ps [s [_ ->]] _ IH]; simpl; [reflexivity|].
  now rewrite IH.
Qed.


Lemma stock_from_ids (ws : list watch) (st : list Seller.stock_update) :
  Forall2 stock_from ws st -> map Seller.offer_id st = map code_text ws.
Proof.
  induction 1 as [|w u ws st [Hid _] _ IH]; simpl; [reflexivity|].
  now rewrite IH, Hid.
Qed.

Lemma listed_ids_In (I : list string) (F : list watch) (x : string) :
  In x (map code_text (listed I F)) <-> In x I /\ In x (map code_text F).
Proof.
  unfold listed. rewrite !in_map_iff. split.
  - intros [w [<- Hw]]. apply filter_In in Hw as [Hw Hin].
    apply py_in_In in Hin. split; [assumption|]. now exists w.
  - intros [HI [w [<- Hw]]]. exists w. split; [reflexivity|].
    apply filter_In. split; [assumption|]. now apply py_in_In.
Qed.


Lemma listed_count (I : list string) (F : list watch) (x : string) :
  In x I ->
  count_of x (map code_text (listed I F)) = count_of x (map code_text F).
Proof.
  intros Hx. unfold listed, count_of.
  induction F as [|w F IH]; simpl; [reflexivity|].
  destruct (py_in (code_text w) I) eqn:Hin; simpl.
  - now rewrite IH.
  - destruct (string_dec (code_text w) x) as [Heq|_]; [|assumption].
    apply py_in_not_In in Hin. congruence.
Qed.

Lemma py_in_remove_first (x y : string) (I : list string) :
  NoDup I ->
  py_in y (remove_first x I) = negb (String.eqb x y) && py_in y I.
Proof.
  intros HI. apply eq_true_iff_eq.
  rewrite andb_true_iff, negb_true_iff, !py_in_In, (remove_first_filter _ _ HI).
  rewrite filter_In, negb_true_iff. tauto.
Qed.

Lemma listed_remove_first (x : string) (I : list string) (F : list watch) :
  NoDup I ->
  map code_text (listed (remove_first x I) F) =
  filter (fun y => negb (String.eqb x y)) (map code_text (listed I F)).
Proof.
  intros HI. unfold listed. induction F as [|w F IH]; simpl; [reflexivity|].
  rewrite (py_in_remove_first _ _ _ HI).
  destruct (py_in (code_text w) I); simpl.
  - destruct (negb (String.eqb x (code_text w))); simpl; now rewrite IH.
  - now rewrite andb_false_r.
Qed.

Lemma first_occurrences_filter (g : string -> bool) (l : list string) :
  filter g (first_occurrences l) = first_occurrences (filter g l).
Proof.
  induction l as [|x l IH]; simpl; [reflexivity|].
  destruct (g x) eqn:Eg; simpl.
  - rewrite <- IH, !filter_filter. f_equal. apply filter_ext.
    intros y. apply andb_comm.
  - rewrite <- IH, filter_filter. apply filter_ext. intros y.
    destruct (String.eqb_spec x y) as [<-|_]; simpl; [now rewrite Eg|reflexivity].
Qed.

Lemma stocks_loop_ids_first (F : list watch) (I : list string) st rem :
  NoDup I ->
  Seller.stocks_loop F [] I = Ok (st, rem) ->
  map Seller.offer_id st = first_occurrences (map code_text (listed I F)).
Proof.
  revert I st rem. induction F as [|w F IH]; intros I st rem HI H.
  - simpl in H. injection H as <- <-. reflexivity.
  - loop_step w I H.
    + unfold listed. simpl. rewrite Hin. simpl. f_equal.
      rewrite (IH _ _ _ (remove_first_NoDup _ _ HI) Hloop).
      rewrite (listed_remove_first _ _ _ HI).
      symmetry. apply first_occurrences_filter.
    + unfold listed. simpl. rewrite Hin. now apply (IH _ _ _ HI H).
Qed.

Lemma stocks_loop_matched_in (F : list watch) (I : list string) st rem x :
  Seller.stocks_loop F [] I = Ok (st, rem) ->
  In x (map code_text F) -> In x I -> In x (map Seller.offer_id st).
Proof.
  revert I st rem. induction F as [|w F IH]; intros I st rem H HF HI.
  - destruct HF.
  - loop_step w I H.
    + simpl. destruct (string_dec (code_text w) x) as [Heq|Hne]; [now left|right].
      apply (IH _ _ _ Hloop).
      * destruct HF as [HF|HF]; [contradiction|assumption].
      * apply count_of_In. rewrite count_of_remove_first_ne by congruence.
        now apply count_of_In.
    + apply (IH _ _ _ H); [|assumption].
      destruct HF as [HF|HF]; [|assumption].
      apply py_in_not_In in Hin. congruence.
Qed.

Lemma stocks_ids (st : list Seller.stock_update) (rem : list string) :
  map Seller.offer_id (st ++ map zero_stock rem) = map Seller.offer_id st ++ rem.
Proof.
  rewrite map_app, map_map. simpl. now rewrite map_id.
Qed.

(** ** Reconciliation *)

Lemma create_stocks_inv (F : list watch) (I : list string) stocks rem :
  Seller.create_stocks F I = Ok (stocks, rem) ->
  exists st,
    Seller.stocks_loop F [] I = Ok (st, rem) /\ stocks = st ++ map zero_stock rem.
Proof.
  rewrite create_stocks_unfold.
  destruct (Seller.stocks_loop F [] I) as [[st rem']|e]; simpl; [|discriminate].
  intros H. injection H as <- <-. now exists st.
Qed.


Lemma create_stocks_total (F : list watch) (I : list string) :
  Forall (fun w => feed_record_ok w = true) F ->
  exists stocks rem, Seller.create_stocks F I = Ok (stocks, rem).
Proof.
  intros HF. destruct (stocks_loop_total F I HF) as [st [rem Hloop]].
  rewrite create_stocks_unfold, Hloop. simpl. eauto.
Qed.

Lemma listed_remove_first_Subseq (x : string) (I : list string) (F : list watch) :
  Subseq (map code_text (listed (remove_first x I) F))
         (map code_text (listed I F)).
Proof.
  unfold listed. induction F as [|v F IH]; simpl; [constructor|].
  destruct (py_in (code_text v) (remove_first x I)) eqn:E.
  - apply py_in_In in E.
    assert (py_in (code_text v) I = true) as ->.
    { apply py_in_In. eapply Subseq_In; [apply remove_first_Subseq|eassumption]. }
    simpl. now apply Subseq_keep.
  - destruct (py_in (code_text v) I); simpl; [now apply Subseq_skip|assumption].
Qed.

Lemma stocks_loop_ids_Subseq (F : list watch) (I : list string) st rem :
  Seller.stocks_loop F [] I = Ok (st, rem) ->
  Subseq (map Seller.offer_id st) (map code_text (listed I F)).
Proof.
  revert I st rem. induction F as [|w F IH]; intros I st rem H.
  - simpl in H. injection H as <- <-. constructor.
  - loop_step w I H.
    + unfold listed. simpl. rewrite Hin. simpl. apply Subseq_keep.
      eapply Subseq_trans; [apply (IH _ _ _ Hloop)|].
      apply listed_remove_first_Subseq.
    + unfold listed. simpl. rewrite Hin. apply (IH _ _ _ H).
Qed.



(** C7.  Whenever [create_stocks] returns, its stock updates are the updates
    of the matched records, in feed order, followed by the zero-stock updates
    of the leftover identifiers, in the order of the identifier list; with
    identifiers free of repetitions the matched part names each listed feed
    code once, where it first occurs in the feed, and the leftover part is
    the identifier list without the codes of the feed.  Whenever
    [create_prices] returns, its price updates are those of the feed records
    whose code is listed, in feed order, so an identifier no feed record
    names has no price update.  Both return for a feed of well-formed
    records. *)
Theorem update_order (F : list watch) (I : list string) :
  (forall stocks rem,
      Seller.create_stocks F I = Ok (stocks, rem) ->
      exists st,
        stocks = st ++ map zero_stock rem /\
        Subseq (map Seller.offer_id st) (map code_text (listed I F)) /\
        Subseq rem I /\
        (NoDup I ->
         map Seller.offer_id st = first_occurrences (map code_text (listed I F)) /\
         rem = filter (fun x => negb (py_in x (map code_text F))) I)) /\
  (forall prices,
      Seller.create_prices F I = Ok prices ->
      map Seller.price_offer_id prices = map code_text (listed I F) /\
      (forall x, ~ In x (map code_text F) ->
                 ~ In x (map Seller.price_offer_id prices))) /\
  (Forall (fun w => feed_record_ok w = true) F ->
   exists stocks rem prices,
     Seller.create_stocks F I = Ok (stocks, rem) /\
     Seller.create_prices F I = Ok prices).
Proof.
  split; [|split].
  - intros stocks rem Hst.
    destruct (create_stocks_inv _ _ _ _ Hst) as [st [Hloop ->]].
    exists st. split; [reflexivity|]. split; [|split].
    + apply (stocks_loop_ids_Subseq _ _ _ _ Hloop).
    + apply (stocks_loop_rem_Subseq _ _ _ _ Hloop).
    + intros HI. split.
      * apply (stocks_loop_ids_first _ _ _ _ HI Hloop).
      * apply (stocks_loop_rem_filter _ _ _ _ HI Hloop).
  - intros ps Hps.
    pose proof (create_prices_from_feed _ _ _ Hps) as Hfrom. split.
    + apply (price_from_ids _ _ Hfrom).
    + intros x Hx. rewrite (price_from_ids _ _ Hfrom), listed_ids_In. tauto.
  - intros HF.
    destruct (create_stocks_total F I HF) as [stocks [rem Hst]].
    destruct (create_prices_total F I HF) as [ps Hps].
    now exists stocks, rem, ps.
Qed.

Lemma update_order_witness :
  exists st rem prices,
    Seller.create_stocks scenario_feed ["A3"; "A2"; "A1"]
      = Ok (st ++ map zero_stock rem, rem) /\
    map Seller.offer_id st = ["A1"; "A2"] /\
    rem = ["A3"] /\
    Seller.create_prices scenario_feed ["A3"; "A2"; "A1"] = Ok prices /\
    map Seller.price_offer_id prices = ["A1"; "A2"].
Proof.
  destruct (update_order scenario_feed ["A3"; "A2"; "A1"])
    as (Hstocks & Hprices & Htotal).
  destruct Htotal as (stocks & rem & prices & Hst & Hps); [repeat constructor|].
  destruct (Hstocks stocks rem Hst) as (st & -> & _ & _ & Hexact).
  destruct Hexact as [Hids Hrem];
    [repeat constructor; simpl; intuition discriminate|].
  destruct (Hprices prices Hps) as [Hpids _].
  exists st, rem, prices. repeat split; assumption.
Defined.

(** C10.  For a code that is once in the identifier list: whenever
    [create_stocks] returns it has emitted exactly one stock update for the
    code, however many feed records carry it; when some record carries the
    code, the update is made from the first of them and the code is not left
    in the working list.  Whenever [create_prices] returns it has emitted one
    price update for each feed record that carries the code.  Both return
    for a feed of well-formed records. *)
Theorem duplicate_feed_codes (F : list watch) (I : list string) (c : string) :
  count_of c I = 1 ->
  (forall stocks rem,
      Seller.create_stocks F I = Ok (stocks, rem) ->
      count_of c (map Seller.offer_id stocks) = 1 /\
      (forall u, In u stocks -> Seller.offer_id u = c ->
                 feed_quantity F c = Ok (Seller.stock u)) /\
      (In c (map code_text F) -> ~ In c rem)) /\
  (forall prices,
      Seller.create_prices F I = Ok prices ->
      count_of c (map Seller.price_offer_id prices) =
      count_of c (map code_text F)) /\
  (Forall (fun w => feed_record_ok w = true) F ->
   exists stocks rem prices,
     Seller.create_stocks F I = Ok (stocks, rem) /\
     Seller.create_prices F I = Ok prices).
Proof.
  intros Hc.
  assert (In c I) as HcI by (apply count_of_In; lia).
  split; [|split].
  - intros stocks rem Hst.
    destruct (create_stocks_inv _ _ _ _ Hst) as [st [Hloop ->]].
    pose proof (stocks_loop_perm _ _ _ _ Hloop) as Hperm.
    assert (count_of c (map Seller.offer_id st) + count_of c rem = 1) as Hsum.
    { unfold count_of in *. rewrite <- count_occ_app.
      now rewrite (proj1 (Permutation_count_occ string_dec _ _) Hperm c). }
    assert (In c (map code_text F) -> ~ In c rem) as Hrem.
    { intros HcF Hr. apply count_of_In in Hr.
      pose proof (stocks_loop_matched_in _ _ _ _ _ Hloop HcF HcI) as Hin.
      apply count_of_In in Hin. lia. }
    split; [|split].
    + rewrite stocks_ids. unfold count_of in *. now rewrite count_occ_app.
    + intros u Hu Hid. apply in_app_or in Hu as [Hu|Hu].
      * refine (stocks_loop_quantity_at _ _ _ _ _ _ Hloop u Hu Hid). lia.
      * apply in_map_iff in Hu as [x [<- Hx]]. simpl in *. subst x.
        destruct (in_dec string_dec c (map code_text F)) as [HcF|HcF].
        -- now destruct (Hrem HcF).
        -- now apply feed_quantity_absent.
    + assumption.
  - intros ps Hps.
    rewrite (price_from_ids _ _ (create_prices_from_feed _ _ _ Hps)).
    now apply listed_count.
  - intros HF.
    destruct (create_stocks_total F I HF) as [stocks [rem Hst]].
    destruct (create_prices_total F I HF) as [ps Hps].
    now exists stocks, rem, ps.
Qed.

Lemma duplicate_feed_codes_witness :
  exists stocks rem prices,
    Seller.create_stocks (scenario_feed ++ scenario_feed) ["A1"; "A3"]
      = Ok (stocks, rem) /\
    Seller.create_prices (scenario_feed ++ scenario_feed) ["A1"; "A3"]
      = Ok prices /\
    count_of "A1" (map Seller.offer_id stocks) = 1 /\
    count_of "A1" (map Seller.price_offer_id prices) = 2.
Proof.
  destruct (duplicate_feed_codes (scenario_feed ++ scenario_feed)
              ["A1"; "A3"] "A1" eq_refl)
    as (Hstocks & Hprices & Htotal).
  destruct Htotal as (stocks & rem & prices & Hst & Hps); [repeat constructor|].
  destruct (Hstocks stocks rem Hst) as (H1 & _).
  pose proof (Hprices prices Hps) as H2.
  exists stocks, rem, prices. repeat split; assumption.
Defined.

(** ** Marketplace B builds the same updates in its own format *)

Lemma market_stocks_loop (wh date : string) (F : list watch)
    (acc : list Seller.stock_update) (I : list string) :
  Market.stocks_loop wh date F (map (market_entry wh date) acc) I =
  ' (st, rem) <- Seller.stocks_loop F acc I ;;
  Ok (map (market_entry wh date) st, rem).
Proof.
  revert acc I. induction F as [|w F IH]; intros acc I; simpl; [reflexivity|].
  destruct (py_in (py_str (code w)) I); [|apply IH].
  destruct (stock_of_quantity (quantity w)) as [s|e]; simpl; [|reflexivity].
  destruct (py_remove (py_str (code w)) I) as [I'|e]; simpl; [|reflexivity].
  rewrite <- IH, map_app. reflexivity.
Qed.

Lemma market_create_stocks (now : datetime) (F : list watch) (I : list string)
    (wh : string) :
  Market.create_stocks now F I wh =
  ' (stocks, rem) <- Seller.create_stocks F I ;;
  Ok (map (market_entry wh (date_of now)) stocks, rem).
Proof.
  unfold Market.create_stocks. fold (date_of now).
  pose proof (market_stocks_loop wh (date_of now) F [] I) as H.
  simpl map in H. rewrite H. clear H.
  rewrite create_stocks_unfold.
  destruct (Seller.stocks_loop F [] I) as [[st rem]|e]; simpl; [|reflexivity].
  rewrite (fold_left_append (fun x => Market.stock_entry x wh 0 (date_of now))).
  now rewrite map_app, map_map.
Qed.

(** ** Quantity normalisation *)

Lemma stocks_loop_app (pre post : list watch) (acc : list Seller.stock_update)
    (I : list string) :
  Seller.stocks_loop (pre ++ post) acc I =
  ' (acc', I') <- Seller.stocks_loop pre acc I ;; Seller.stocks_loop post acc' I'.
Proof.
  revert acc I. induction pre as [|w pre IH]; intros acc I; simpl; [reflexivity|].
  destruct (py_in (py_str (code w)) I); [|apply IH].
  destruct (stock_of_quantity (quantity w)) as [s|e]; simpl; [|reflexivity].
  destruct (py_remove (py_str (code w)) I) as [I'|e]; simpl; [|reflexivity].
  apply IH.
Qed.

Lemma create_stocks_match (w : watch) (F : list watch) (I : list string) :
  py_in (code_text w) I = true ->
  Seller.create_stocks (w :: F) I =
  s <- stock_of_quantity (quantity w) ;;
  ' (stocks, rem) <- Seller.create_stocks F (remove_first (code_text w) I) ;;
  Ok ({| Seller.offer_id := code_text w; Seller.stock := s |} :: stocks, rem).
Proof.
  intros Hin. rewrite create_stocks_unfold, (stocks_loop_match _ _ _ Hin).
  destruct (stock_of_quantity (quantity w)) as [s|e]; cbn [rbind]; [|reflexivity].
  rewrite create_stocks_unfold.
  now destruct (Seller.stocks_loop F [] _) as [[st rem]|e].
Qed.

Lemma create_stocks_raises (pre post : list watch) (w : watch) (I I' : list string)
    (acc : list Seller.stock_update) (e : exn) :
  Seller.stocks_loop pre [] I = Ok (acc, I') ->
  py_in (code_text w) I' = true ->
  stock_of_quantity (quantity w) = Raise e ->
  Seller.create_stocks (pre ++ w :: post) I = Raise e.
Proof.
  intros Hpre Hin Hq.
  rewrite create_stocks_unfold, stocks_loop_app, Hpre. cbn [rbind].
  rewrite stocks_loop_acc, (stocks_loop_match _ _ _ Hin), Hq. reflexivity.
Qed.

Lemma garbage_quantity (q : string) :
  q <> ">10" -> q <> "1" -> int_of_text q = None ->
  stock_of_quantity (PyStr q) = Raise ValueError.
Proof.
  intros H10 H1 Hq. unfold stock_of_quantity. simpl.
  destruct (String.eqb_spec q ">10"); [contradiction|].
  destruct (String.eqb_spec q "1"); [contradiction|].
  now rewrite Hq.
Qed.

(** C4.  The quantity rule of [create_stocks] maps the text "100" to 100,
    ">10" to 100, "1" to 0 and "0" to 0 (and every quantity text to the
    stock the specification's words give it), and the update that either
    marketplace builds for a matched record carries the result; when a
    record matches the working list and its quantity text is not ">10", not
    "1" and not an integer literal that [int] accepts, [create_stocks]
    raises [ValueError], for both marketplaces. *)
Theorem quantity_normalization :
  stock_of_quantity (PyStr "100") = Ok 100%Z /\
  stock_of_quantity (PyStr ">10") = Ok 100%Z /\
  stock_of_quantity (PyStr "1") = Ok 0%Z /\
  stock_of_quantity (PyStr "0") = Ok 0%Z /\
  (forall q z, spec_quantity q z -> stock_of_quantity (PyStr q) = Ok z) /\
  (forall w F I,
      py_in (code_text w) I = true ->
      Seller.create_stocks (w :: F) I =
      s <- stock_of_quantity (quantity w) ;;
      ' (stocks, rem) <- Seller.create_stocks F (remove_first (code_text w) I) ;;
      Ok ({| Seller.offer_id := code_text w; Seller.stock := s |} :: stocks, rem)) /\
  (forall now wh w F I,
      py_in (code_text w) I = true ->
      Market.create_stocks now (w :: F) I wh =
      s <- stock_of_quantity (quantity w) ;;
      ' (entries, rem) <-
        Market.create_stocks now F (remove_first (code_text w) I) wh ;;
      Ok ({| Market.sku := code_text w;
             Market.warehouseId := wh;
             Market.items := [ {| Market.count := s;
                                  Market.type := "FIT";
                                  Market.updatedAt := date_of now |} ] |}
            :: entries, rem)) /\
  (forall pre w post I acc I' q,
      Seller.stocks_loop pre [] I = Ok (acc, I') ->
      py_in (code_text w) I' = true ->
      quantity w = PyStr q ->
      q <> ">10" -> q <> "1" -> int_of_text q = None ->
      Seller.create_stocks (pre ++ w :: post) I = Raise ValueError /\
      forall now wh,
        Market.create_stocks now (pre ++ w :: post) I wh = Raise ValueError).
Proof.
  repeat (split; [reflexivity|]).
  split; [exact spec_quantity_sound|]. split; [|split].
  - intros w F I. apply create_stocks_match.
  - intros now wh w F I Hin.
    rewrite !market_create_stocks, (create_stocks_match _ _ _ Hin).
    destruct (stock_of_quantity (quantity w)) as [s|e]; cbn [rbind];
      [|reflexivity].
    now destruct (Seller.create_stocks F (remove_first (code_text w) I))
      as [[stocks rem]|e].
  - intros pre w post I acc I' q Hpre Hin Hq H10 H1 Hint.
    assert (Seller.create_stocks (pre ++ w :: post) I = Raise ValueError) as H.
    { apply (create_stocks_raises _ _ _ _ _ _ _ Hpre Hin).
      rewrite Hq. now apply garbage_quantity. }
    split; [assumption|].
    intros now wh. now rewrite market_create_stocks, H.
Qed.

Lemma quantity_normalization_witness :
  Seller.create_stocks
    [ {| code := PyStr "A1"; quantity := PyStr "12"; price := PyStr "1.00" |};
      {| code := PyStr "A2"; quantity := PyStr "много"; price := PyStr "1.00" |} ]
    ["A1"; "A2"] = Raise ValueError /\
  Market.create_stocks clock_a
    [ {| code := PyStr "A1"; quantity := PyStr "12"; price := PyStr "1.00" |};
      {| code := PyStr "A2"; quantity := PyStr "много"; price := PyStr "1.00" |} ]
    ["A1"; "A2"] "wh" = Raise ValueError.
Proof.
  destruct (proj2 (proj2 (proj2 (proj2 (proj2 (proj2 (proj2
              quantity_normalization))))))
              [ {| code := PyStr "A1"; quantity := PyStr "12";
                   price := PyStr "1.00" |} ]
              {| code := PyStr "A2"; quantity := PyStr "много";
                 price := PyStr "1.00" |}
              [] ["A1"; "A2"]
              [ {| Seller.offer_id := "A1"; Seller.stock := 12 |} ] ["A2"]
              "много" eq_refl eq_refl eq_refl
              ltac:(discriminate) ltac:(discriminate) eq_refl) as [Hs Hm].
  split; [exact Hs|exact (Hm clock_a "wh")].
Defined.

(** ** Repeated reconciliation *)

Lemma twice_fresh_same {A} (call : list string -> result (A * list string))
    (I : list string) :
  twice_fresh call I = ' (out, _) <- call I ;; Ok (out, out).
Proof.
  unfold twice_fresh. now destruct (call I) as [[out I']|e].
Qed.

Lemma without_date_market_entry (wh d : string) (u : Seller.stock_update) :
  without_date (market_entry wh d u) = without_date (market_entry wh EmptyString u).
Proof. reflexivity. Qed.

(** Against C2 as stated: the same feed, identifiers and warehouse, given to
    [create_stocks] of marketplace B when the clock reads [clock_a] and again
    when it reads [clock_b], yield different outputs. *)
Lemma market_create_stocks_clock :
  Market.create_stocks clock_a scenario_feed ["A1"; "A2"; "A3"] "wh" <>
  Market.create_stocks clock_b scenario_feed ["A1"; "A2"; "A3"] "wh".
Proof. vm_compute. discriminate. Qed.

(** C2, amended.  Two calls on fresh copies of the same inputs return the
    same output for [create_stocks] and [create_prices] of marketplace A and
    for [create_prices] of marketplace B.  For [create_stocks] of marketplace
    B both calls raise the same exception or both return; the outputs then
    agree in every field but [updatedAt], leave the same identifiers, and are
    identical when both calls read the same second of the clock, and only
    then unless they are empty. *)
Theorem reconcile_repeatable (F : list watch) (I : list string) :
  twice_fresh (Seller.create_stocks F) I =
    (' (out, _) <- Seller.create_stocks F I ;; Ok (out, out)) /\
  twice_fresh (fun ids => ps <- Seller.create_prices F ids ;; Ok (ps, ids)) I =
    (ps <- Seller.create_prices F I ;; Ok (ps, ps)) /\
  twice_fresh (fun ids => ps <- Market.create_prices F ids ;; Ok (ps, ids)) I =
    (ps <- Market.create_prices F I ;; Ok (ps, ps)) /\
  forall now1 now2 wh,
    match Market.create_stocks now1 F I wh, Market.create_stocks now2 F I wh with
    | Ok (out1, rem1), Ok (out2, rem2) =>
        map without_date out1 = map without_date out2 /\
        rem1 = rem2 /\
        (date_of now1 = date_of now2 -> out1 = out2) /\
        (out1 = out2 -> out1 = [] \/ date_of now1 = date_of now2)
    | Raise e1, Raise e2 => e1 = e2
    | _, _ => False
    end.
Proof.
  split; [apply twice_fresh_same|].
  split; [rewrite twice_fresh_same; now destruct (Seller.create_prices F I)|].
  split; [rewrite twice_fresh_same; now destruct (Market.create_prices F I)|].
  intros now1 now2 wh. rewrite !market_create_stocks.
  destruct (Seller.create_stocks F I) as [[stocks rem]|e]; simpl; [|reflexivity].
  split; [|split; [reflexivity|split]].
  - rewrite !map_map. apply map_ext. intros u.
    now rewrite without_date_market_entry, (without_date_market_entry wh (date_of now2)).
  - now intros ->.
  - intros H. destruct stocks as [|u stocks]; [now left|right].
    exact (f_equal (fun l => match l with
                             | s :: _ =>
                                 match Market.items s with
                                 | i :: _ => Market.updatedAt i
                                 | [] => EmptyString
                                 end
                             | [] => EmptyString
                             end) H).
Qed.

Lemma reconcile_repeatable_witness :
  Market.create_stocks clock_a scenario_feed ["A1"; "A2"; "A3"] "wh" =
  Market.create_stocks clock_a' scenario_feed ["A1"; "A2"; "A3"] "wh".
Proof.
  pose proof (proj2 (proj2 (proj2
    (reconcile_repeatable scenario_feed ["A1"; "A2"; "A3"])))
    clock_a clock_a' "wh") as H.
  destruct (Market.create_stocks clock_a scenario_feed ["A1"; "A2"; "A3"] "wh")
    as [[out1 rem1]|e1];
  destruct (Market.create_stocks clock_a' scenario_feed ["A1"; "A2"; "A3"] "wh")
    as [[out2 rem2]|e2]; try contradiction.
  - destruct H as (_ & -> & H & _). now rewrite (H eq_refl).
  - now subst.
Defined.

(** ** The caller's identifier list *)

(** C3, as the code has it.  [create_stocks] works on the list object it is
    given: on return the caller's list holds the leftover identifiers only
    (here "A3" out of "A1", "A2", "A3"), for both marketplaces; the
    [create_prices] that [main] of seller.py then runs on the same list
    finds no feed code in it and returns no price update, whereas on a fresh
    copy it returns two; and a second [create_stocks] on the same list does
    not repeat the first. *)
Theorem create_stocks_consumes_identifiers :
  (exists stocks,
      Seller.create_stocks scenario_feed ["A1"; "A2"; "A3"] = Ok (stocks, ["A3"])) /\
  (exists stocks,
      Market.create_stocks clock_a scenario_feed ["A1"; "A2"; "A3"] "wh"
      = Ok (stocks, ["A3"])) /\
  (exists stocks,
      Seller.main_reconcile scenario_feed ["A1"; "A2"; "A3"] = Ok (stocks, [])) /\
  (exists stocks prices,
      Seller.reconcile scenario_feed ["A1"; "A2"; "A3"] = Ok (stocks, prices) /\
      List.length prices = 2) /\
  (exists out1 out2,
      twice_shared (Seller.create_stocks scenario_feed) ["A1"; "A2"; "A3"]
      = Ok (out1, out2) /\ out1 <> out2).
Proof.
  split; [eexists; reflexivity|].
  split; [eexists; reflexivity|].
  split; [eexists; reflexivity|].
  split; [do 2 eexists; split; reflexivity|].
  do 2 eexists. split; [reflexivity|discriminate].
Qed.

(** What the caller's list holds after [create_stocks], in general: the
    identifiers in their order, less one occurrence for each update made from
    a feed record. *)
Lemma create_stocks_leftover (F : list watch) (I : list string) stocks rem :
  Seller.create_stocks F I = Ok (stocks, rem) ->
  Subseq rem I /\
  (NoDup I -> rem = filter (fun x => negb (py_in x (map code_text F))) I).
Proof.
  rewrite create_stocks_unfold.
  destruct (Seller.stocks_loop F [] I) as [[st rem']|e] eqn:Hloop; simpl;
    [|discriminate].
  intros H. injection H as _ <-. split.
  - apply (stocks_loop_rem_Subseq _ _ _ _ Hloop).
  - intros HI. apply (stocks_loop_rem_filter _ _ _ _ HI Hloop).
Qed.

(** ** Pagination *)

Lemma raise_for_status_2xx (code : Z) :
  (200 <= code < 300)%Z -> raise_for_status code = Ok tt.
Proof.
  intros H. unfold raise_for_status.
  destruct (Z.leb_spec 400 code); [lia|reflexivity].
Qed.

Lemma raise_for_status_error (code : Z) :
  (400 <= code < 600)%Z -> raise_for_status code = Raise HTTPError.
Proof.
  intros H. unfold raise_for_status.
  destruct (Z.leb_spec 400 code); [|lia].
  destruct (Z.ltb_spec code 600); [reflexivity|lia].
Qed.

Lemma firstn_NoDup {A} (k : nat) (l : list A) : NoDup l -> NoDup (firstn k l).
Proof.
  intros H. rewrite <- (firstn_skipn k l) in H. now apply NoDup_app_remove_r in H.
Qed.

(** *** Marketplace A *)

Lemma seller_get_product_list_ok (srv : Seller.server) (tok : string)
    (p : Seller.listing) (tr : list Seller.request) :
  (200 <= Seller.status_code (srv tr (Seller.ProductList tok)) < 300)%Z ->
  Seller.content (srv tr (Seller.ProductList tok)) = Seller.JSON (Some p) ->
  Seller.get_product_list srv tok tr =
  (Some (Ok (Some p)), tr ++ [Seller.ProductList tok]).
Proof.
  intros Hs Hc.
  unfold Seller.get_product_list, io_bind, http, io_lift, io_ret,
    Seller.response_json.
  now rewrite (raise_for_status_2xx _ Hs), Hc.
Qed.

Lemma seller_serves_unique (srv : Seller.server) (tok : string)
    (ps ps' : list Seller.listing) :
  Seller.serves srv tok ps -> Seller.serves srv tok ps' -> ps = ps'.
Proof.
  revert tok ps'. induction ps as [|p rest IH]; intros tok ps' H H'; [destruct H|].
  destruct ps' as [|p' rest']; [destruct H'|].
  destruct H as [Hp Hrest], H' as [Hp' Hrest'].
  assert (p = p') as <-.
  { destruct (Hp []) as [_ E], (Hp' []) as [_ E']. congruence. }
  f_equal. destruct rest as [|q rest], rest' as [|q' rest'].
  - reflexivity.
  - destruct Hrest' as [Hne _]. contradiction.
  - destruct Hrest as [Hne _]. contradiction.
  - destruct Hrest as [_ Hrest], Hrest' as [_ Hrest']. now apply (IH _ _ Hrest).
Qed.

Lemma seller_serves_suffix (srv : Seller.server) (tok x : string)
    (ps : list Seller.listing) :
  Seller.serves srv tok ps -> In x (Seller.page_tokens tok ps) ->
  exists ps1 ps2, ps = ps1 ++ ps2 /\ Seller.serves srv x ps2.
Proof.
  revert tok. induction ps as [|p rest IH]; intros tok H Hx; [destruct H|].
  destruct Hx as [<-|Hx].
  - now exists [], (p :: rest).
  - destruct rest as [|q rest]; [destruct Hx|].
    destruct H as [_ [_ H]].
    destruct (IH _ H Hx) as [ps1 [ps2 [E Hs]]].
    exists (p :: ps1), ps2. split; [simpl; now rewrite E|assumption].
Qed.

Lemma seller_tokens_NoDup (srv : Seller.server) (tok : string)
    (ps : list Seller.listing) :
  Seller.serves srv tok ps -> NoDup (Seller.page_tokens tok ps).
Proof.
  revert tok. induction ps as [|p rest IH]; intros tok H; [constructor|].
  simpl. constructor.
  - intros Hx. destruct rest as [|q rest]; [destruct Hx|].
    pose proof H as [_ [_ Hrest]].
    destruct (seller_serves_suffix _ _ _ _ Hrest Hx) as [ps1 [ps2 [E Hs]]].
    pose proof (seller_serves_unique _ _ _ _ H Hs) as E'.
    apply (f_equal (@List.length _)) in E, E'.
    rewrite length_app in E. simpl in E, E'. lia.
  - destruct rest as [|q rest]; [constructor|].
    destruct H as [_ [_ Hrest]]. now apply IH.
Qed.

Lemma seller_loop_complete (srv : Seller.server) (T : nat)
    (pages : list Seller.listing) :
  Forall (fun p => Seller.total p = Z.of_nat T) pages ->
  forall tok acc fuel tr,
    Seller.serves srv tok pages ->
    T = List.length acc + List.length (List.concat (map Seller.items pages)) ->
    List.length pages <= fuel ->
    exists k,
      1 <= k <= List.length pages /\
      Seller.offer_ids_loop fuel srv tok acc tr =
      (Some (Ok (acc ++ List.concat (map Seller.items pages))),
       tr ++ map Seller.ProductList (firstn k (Seller.page_tokens tok pages))).
Proof.
  induction 1 as [|p rest Hp Hrest IH]; intros tok acc fuel tr Hs HT Hf;
    [destruct Hs|].
  destruct fuel as [|fuel]; [simpl in Hf; lia|].
  destruct Hs as [Hpage Hnext]. destruct (Hpage tr) as [Hstatus Hcontent].
  cbn [Seller.offer_ids_loop]. unfold io_bind at 1.
  rewrite (seller_get_product_list_ok _ _ _ _ Hstatus Hcontent).
  cbn [map List.concat] in *. rewrite length_app in HT.
  rewrite Hp, length_app.
  destruct (Z.eqb_spec (Z.of_nat T)
              (Z.of_nat (List.length acc + List.length (Seller.items p))))
    as [E|E].
  - exists 1. split; [simpl; lia|].
    assert (List.concat (map Seller.items rest) = []) as ->.
    { apply length_zero_iff_nil. lia. }
    rewrite app_nil_r. reflexivity.
  - destruct rest as [|q rest].
    { exfalso. apply E. simpl in HT. f_equal. lia. }
    destruct Hnext as [_ Hnext].
    destruct (IH (Seller.last_id p) (acc ++ Seller.items p) fuel
                (tr ++ [Seller.ProductList tok]) Hnext)
      as [k [Hk Hloop]].
    + rewrite length_app. lia.
    + simpl in Hf |- *. lia.
    + exists (S k). split; [simpl in Hk |- *; lia|].
      rewrite Hloop. rewrite <- !app_assoc. reflexivity.
Qed.

(** *** Marketplace B *)

Lemma market_get_product_list_ok (srv : Market.server) (tok : string)
    (p : Market.listing) (tr : list Market.request) :
  (200 <= Market.status_code (srv tr (Market.ProductList tok)) < 300)%Z ->
  Market.content (srv tr (Market.ProductList tok)) = Market.JSON (Some p) ->
  Market.get_product_list srv tok tr =
  (Some (Ok (Some p)), tr ++ [Market.ProductList tok]).
Proof.
  intros Hs Hc.
  unfold Market.get_product_list, io_bind, http, io_lift, io_ret,
    Market.response_json.
  now rewrite (raise_for_status_2xx _ Hs), Hc.
Qed.

Lemma market_serves_unique (srv : Market.server) (tok : string)
    (ps ps' : list Market.listing) :
  Market.serves srv tok ps -> Market.serves srv tok ps' -> ps = ps'.
Proof.
  revert tok ps'. induction ps as [|p rest IH]; intros tok ps' H H'; [destruct H|].
  destruct ps' as [|p' rest']; [destruct H'|].
  destruct H as [Hp Hrest], H' as [Hp' Hrest'].
  assert (p = p') as <-.
  { destruct (Hp []) as [_ E], (Hp' []) as [_ E']. congruence. }
  f_equal. destruct rest as [|q rest], rest' as [|q' rest'].
  - reflexivity.
  - destruct Hrest' as [Hne _]. congruence.
  - destruct Hrest as [Hne _]. congruence.
  - destruct Hrest as [_ Hrest], Hrest' as [_ Hrest']. now apply (IH _ _ Hrest).
Qed.

Lemma market_serves_suffix (srv : Market.server) (tok x : string)
    (ps : list Market.listing) :
  Market.serves srv tok ps -> In x (Market.page_tokens tok ps) ->
  exists ps1 ps2, ps = ps1 ++ ps2 /\ Market.serves srv x ps2.
Proof.
  revert tok. induction ps as [|p rest IH]; intros tok H Hx; [destruct H|].
  destruct Hx as [<-|Hx].
  - now exists [], (p :: rest).
  - destruct rest as [|q rest]; [destruct Hx|].
    destruct H as [_ [_ H]].
    destruct (IH _ H Hx) as [ps1 [ps2 [E Hs]]].
    exists (p :: ps1), ps2. split; [simpl; now rewrite E|assumption].
Qed.

Lemma market_tokens_NoDup (srv : Market.server) (tok : string)
    (ps : list Market.listing) :
  Market.serves srv tok ps -> NoDup (Market.page_tokens tok ps).
Proof.
  revert tok. induction ps as [|p rest IH]; intros tok H; [constructor|].
  simpl. constructor.
  - intros Hx. destruct rest as [|q rest]; [destruct Hx|].
    pose proof H as [_ [_ Hrest]].
    destruct (market_serves_suffix _ _ _ _ Hrest Hx) as [ps1 [ps2 [E Hs]]].
    pose proof (market_serves_unique _ _ _ _ H Hs) as E'.
    apply (f_equal (@List.length _)) in E, E'.
    rewrite length_app in E. simpl in E, E'. lia.
  - destruct rest as [|q rest]; [constructor|].
    destruct H as [_ [_ Hrest]]. now apply IH.
Qed.

Lemma market_loop_complete (srv : Market.server) (pages : list Market.listing) :
  forall tok acc fuel tr,
    Market.serves srv tok pages ->
    List.length pages <= fuel ->
    Market.offer_ids_loop fuel srv tok acc tr =
    (Some (Ok (acc ++ List.concat (map Market.offerMappingEntries pages))),
     tr ++ map Market.ProductList (Market.page_tokens tok pages)).
Proof.
  induction pages as [|p rest IH]; intros tok acc fuel tr Hs Hf; [destruct Hs|].
  destruct fuel as [|fuel]; [simpl in Hf; lia|].
  destruct Hs as [Hpage Hnext]. destruct (Hpage tr) as [Hstatus Hcontent].
  cbn [Market.offer_ids_loop]. unfold io_bind at 1.
  rewrite (market_get_product_list_ok _ _ _ _ Hstatus Hcontent).
  cbn [map List.concat Market.page_tokens].
  destruct rest as [|q rest].
  - unfold Market.token_falsy in Hnext. simpl. rewrite app_nil_r.
    destruct (Market.nextPageToken (Market.paging p)) as [t|]; [|reflexivity].
    now rewrite Hnext.
  - destruct Hnext as [Hfalsy Hnext].
    unfold Market.next_token, Market.token_falsy in *.
    destruct (Market.nextPageToken (Market.paging p)) as [t|]; [|discriminate].
    rewrite Hfalsy.
    rewrite (IH t (acc ++ Market.offerMappingEntries p) fuel
               (tr ++ [Market.ProductList tok]) Hnext ltac:(simpl in *; lia)).
    rewrite <- !app_assoc. reflexivity.
Qed.

(** C8.  Against a well-behaved server, which serves the catalogue as a
    sequence of pages along the continuation tokens, the token being empty or
    absent on the final page only (and, for marketplace A, every page
    reporting the size of the catalogue as its total), [get_offer_ids] of
    either marketplace returns once it has as many iterations as there are
    pages: it requests pages along the tokens and none after the final one,
    no two requests carry the same token, and it returns the identifiers of
    all the pages, in page order, each as often as the server lists it. *)
Theorem pagination_complete :
  (forall (srv : Seller.server) pages fuel tr,
      Seller.well_behaved srv pages ->
      List.length pages <= fuel ->
      exists k,
        1 <= k <= List.length pages /\
        Seller.get_offer_ids fuel srv tr =
          (Some (Ok (map Seller.product_offer_id
                       (List.concat (map Seller.items pages)))),
           tr ++ map Seller.ProductList
                   (firstn k (Seller.page_tokens EmptyString pages))) /\
        NoDup (firstn k (Seller.page_tokens EmptyString pages))) /\
  (forall (srv : Market.server) pages fuel tr,
      Market.well_behaved srv pages ->
      List.length pages <= fuel ->
      Market.get_offer_ids fuel srv tr =
        (Some (Ok (map (fun e => Market.shopSku (Market.offer e))
                     (List.concat (map Market.offerMappingEntries pages)))),
         tr ++ map Market.ProductList (Market.page_tokens EmptyString pages)) /\
      NoDup (Market.page_tokens EmptyString pages)).
Proof.
  split.
  - intros srv pages fuel tr [Hs HT] Hf.
    destruct (seller_loop_complete srv _ pages HT EmptyString [] fuel tr Hs eq_refl Hf)
      as [k [Hk Hloop]].
    exists k. split; [assumption|]. split.
    + unfold Seller.get_offer_ids, io_bind. now rewrite Hloop.
    + apply firstn_NoDup. now apply (seller_tokens_NoDup srv).
  - intros srv pages fuel tr Hs Hf. split.
    + unfold Market.get_offer_ids, io_bind.
      now rewrite (market_loop_complete srv pages EmptyString [] fuel tr Hs Hf).
    + now apply (market_tokens_NoDup srv).
Qed.

Lemma seller_mock_well_behaved :
  Seller.well_behaved seller_mock [seller_page_1; seller_page_2].
Proof.
  split.
  - simpl. repeat split; try (intros; simpl; lia); discriminate.
  - repeat constructor.
Defined.

Lemma market_mock_well_behaved :
  Market.well_behaved market_mock [market_page_1; market_page_2].
Proof.
  unfold Market.well_behaved. simpl.
  repeat split; try (intros; simpl; lia).
Defined.

Lemma pagination_complete_witness :
  (exists k,
      Seller.get_offer_ids 2 seller_mock [] =
      (Some (Ok ["A1"; "A2"; "A3"]),
       map Seller.ProductList (firstn k [EmptyString; "p2"]))) /\
  Market.get_offer_ids 2 market_mock [] =
  (Some (Ok ["A1"; "A2"; "A3"]),
   [Market.ProductList EmptyString; Market.ProductList "p2"]).
Proof.
  split.
  - destruct (proj1 pagination_complete seller_mock
                [seller_page_1; seller_page_2] 2 []
                seller_mock_well_behaved (le_n 2)) as [k [_ [H _]]].
    exists k. exact H.
  - exact (proj1 (proj2 pagination_complete market_mock
                    [market_page_1; market_page_2] 2 []
                    market_mock_well_behaved (le_n 2))).
Defined.

(** ** A failing listing call *)

Lemma seller_get_product_list_eq (srv : Seller.server) (tok : string)
    (tr : list Seller.request) :
  Seller.get_product_list srv tok tr =
  (Some (_ <- raise_for_status
                (Seller.status_code (srv tr (Seller.ProductList tok))) ;;
         Seller.response_json (srv tr (Seller.ProductList tok))),
   tr ++ [Seller.ProductList tok]).
Proof.
  unfold Seller.get_product_list, io_bind, http, io_lift, io_ret.
  destruct (raise_for_status _) as [[]|e]; simpl; [|reflexivity].
  now destruct (Seller.response_json _).
Qed.

Lemma seller_loop_trace (fuel : nat) (srv : Seller.server) :
  forall tok acc tr r tr',
    Seller.offer_ids_loop fuel srv tok acc tr = (r, tr') ->
    exists toks, tr' = tr ++ map Seller.ProductList toks.
Proof.
  induction fuel as [|fuel IH]; intros tok acc tr r tr' H.
  - injection H as _ <-. exists []. now rewrite app_nil_r.
  - cbn [Seller.offer_ids_loop] in H. unfold io_bind at 1 in H.
    rewrite seller_get_product_list_eq in H.
    destruct (_ <- raise_for_status _ ;; Seller.response_json _) as [[p|]|e].
    + destruct (Seller.total p =? _)%Z.
      * injection H as _ <-. now exists [tok].
      * apply IH in H as [toks ->]. exists (tok :: toks).
        now rewrite <- app_assoc.
    + injection H as _ <-. now exists [tok].
    + injection H as _ <-. now exists [tok].
Qed.

Lemma seller_get_offer_ids_trace (fuel : nat) (srv : Seller.server) tr r tr' :
  Seller.get_offer_ids fuel srv tr = (r, tr') ->
  exists toks, tr' = tr ++ map Seller.ProductList toks.
Proof.
  unfold Seller.get_offer_ids, io_bind, io_ret.
  destruct (Seller.offer_ids_loop fuel srv EmptyString [] tr) as [[[l|e]|] tr1] eqn:E;
    intros H; injection H as _ <-; exact (seller_loop_trace _ _ _ _ _ _ _ E).
Qed.

Lemma seller_get_offer_ids_error (fuel : nat) (srv : Seller.server) tr :
  0 < fuel ->
  (400 <= Seller.status_code (srv tr (Seller.ProductList EmptyString)) < 600)%Z ->
  Seller.get_offer_ids fuel srv tr =
  (Some (Raise HTTPError), tr ++ [Seller.ProductList EmptyString]).
Proof.
  intros Hf Hs. destruct fuel as [|fuel]; [lia|].
  unfold Seller.get_offer_ids. cbn [Seller.offer_ids_loop]. unfold io_bind.
  now rewrite seller_get_product_list_eq, (raise_for_status_error _ Hs).
Qed.

Lemma seller_upload_raises (fuel : nat) (srv : Seller.server) (F : list watch)
    tr e tr' :
  Seller.get_offer_ids fuel srv tr = (Some (Raise e), tr') ->
  Seller.upload_stocks fuel srv F tr = (Some (Raise e), tr') /\
  Seller.upload_prices fuel srv F tr = (Some (Raise e), tr').
Proof.
  intros H. unfold Seller.upload_stocks, Seller.upload_prices.
  split; unfold io_bind at 1; now rewrite H.
Qed.

Lemma market_get_product_list_eq (srv : Market.server) (tok : string)
    (tr : list Market.request) :
  Market.get_product_list srv tok tr =
  (Some (_ <- raise_for_status
                (Market.status_code (srv tr (Market.ProductList tok))) ;;
         Market.response_json (srv tr (Market.ProductList tok))),
   tr ++ [Market.ProductList tok]).
Proof.
  unfold Market.get_product_list, io_bind, http, io_lift, io_ret.
  destruct (raise_for_status _) as [[]|e]; simpl; [|reflexivity].
  now destruct (Market.response_json _).
Qed.

Lemma market_loop_trace (fuel : nat) (srv : Market.server) :
  forall tok acc tr r tr',
    Market.offer_ids_loop fuel srv tok acc tr = (r, tr') ->
    exists toks, tr' = tr ++ map Market.ProductList toks.
Proof.
  induction fuel as [|fuel IH]; intros tok acc tr r tr' H.
  - injection H as _ <-. exists []. now rewrite app_nil_r.
  - cbn [Market.offer_ids_loop] in H. unfold io_bind at 1 in H.
    rewrite market_get_product_list_eq in H.
    destruct (_ <- raise_for_status _ ;; Market.response_json _) as [[p|]|e].
    + destruct (Market.nextPageToken (Market.paging p)) as [t|].
      * destruct (String.eqb t EmptyString).
        -- injection H as _ <-. now exists [tok].
        -- apply IH in H as [toks ->]. exists (tok :: toks).
           now rewrite <- app_assoc.
      * injection H as _ <-. now exists [tok].
    + injection H as _ <-. now exists [tok].
    + injection H as _ <-. now exists [tok].
Qed.

Lemma market_get_offer_ids_trace (fuel : nat) (srv : Market.server) tr r tr' :
  Market.get_offer_ids fuel srv tr = (r, tr') ->
  exists toks, tr' = tr ++ map Market.ProductList toks.
Proof.
  unfold Market.get_offer_ids, io_bind, io_ret.
  destruct (Market.offer_ids_loop fuel srv EmptyString [] tr) as [[[l|e]|] tr1] eqn:E;
    intros H; injection H as _ <-; exact (market_loop_trace _ _ _ _ _ _ _ E).
Qed.

Lemma market_get_offer_ids_error (fuel : nat) (srv : Market.server) tr :
  0 < fuel ->
  (400 <= Market.status_code (srv tr (Market.ProductList EmptyString)) < 600)%Z ->
  Market.get_offer_ids fuel srv tr =
  (Some (Raise HTTPError), tr ++ [Market.ProductList EmptyString]).
Proof.
  intros Hf Hs. destruct fuel as [|fuel]; [lia|].
  unfold Market.get_offer_ids. cbn [Market.offer_ids_loop]. unfold io_bind.
  now rewrite market_get_product_list_eq, (raise_for_status_error _ Hs).
Qed.

Lemma market_upload_raises (fuel : nat) (srv : Market.server) (F : list watch)
    (now : datetime) (wh : string) tr e tr' :
  Market.get_offer_ids fuel srv tr = (Some (Raise e), tr') ->
  Market.upload_stocks fuel srv now F wh tr = (Some (Raise e), tr') /\
  Market.upload_prices fuel srv F tr = (Some (Raise e), tr').
Proof.
  intros H. unfold Market.upload_stocks, Market.upload_prices.
  split; unfold io_bind at 1; now rewrite H.
Qed.

Lemma seller_loop_fails (srv : Seller.server) (pages : list Seller.listing) :
  forall tok acc fuel tr,
    seller_fails_after srv tok (List.length acc) pages ->
    List.length pages < fuel ->
    Seller.offer_ids_loop fuel srv tok acc tr =
    (Some (Raise HTTPError),
     tr ++ map Seller.ProductList (seller_request_tokens tok pages)).
Proof.
  induction pages as [|p rest IH]; intros tok acc fuel tr Hs Hf;
    (destruct fuel as [|fuel]; [simpl in Hf; lia|]);
    cbn [Seller.offer_ids_loop]; unfold io_bind at 1.
  - rewrite seller_get_product_list_eq, (raise_for_status_error _ (Hs tr)).
    reflexivity.
  - destruct Hs as (Hpage & Htotal & Hrest).
    destruct (Hpage tr) as [Hstatus Hcontent].
    rewrite (seller_get_product_list_ok _ _ _ _ Hstatus Hcontent).
    rewrite length_app.
    destruct (Z.eqb_spec (Seller.total p)
                (Z.of_nat (List.length acc + List.length (Seller.items p))))
      as [E|_]; [contradiction|].
    rewrite (IH (Seller.last_id p) (acc ++ Seller.items p) fuel
               (tr ++ [Seller.ProductList tok])).
    + cbn [seller_request_tokens map]. now rewrite <- app_assoc.
    + now rewrite length_app.
    + simpl in Hf. lia.
Qed.

Lemma seller_get_offer_ids_fails (srv : Seller.server)
    (pages : list Seller.listing) (fuel : nat) tr :
  seller_fails_after srv EmptyString 0 pages ->
  List.length pages < fuel ->
  Seller.get_offer_ids fuel srv tr =
  (Some (Raise HTTPError),
   tr ++ map Seller.ProductList (seller_request_tokens EmptyString pages)).
Proof.
  intros Hs Hf. unfold Seller.get_offer_ids, io_bind.
  now rewrite (seller_loop_fails srv pages EmptyString [] fuel tr Hs Hf).
Qed.

Lemma market_loop_fails (srv : Market.server) (pages : list Market.listing) :
  forall tok acc fuel tr,
    market_fails_after srv tok pages ->
    List.length pages < fuel ->
    Market.offer_ids_loop fuel srv tok acc tr =
    (Some (Raise HTTPError),
     tr ++ map Market.ProductList (market_request_tokens tok pages)).
Proof.
  induction pages as [|p rest IH]; intros tok acc fuel tr Hs Hf;
    (destruct fuel as [|fuel]; [simpl in Hf; lia|]);
    cbn [Market.offer_ids_loop]; unfold io_bind at 1.
  - rewrite market_get_product_list_eq, (raise_for_status_error _ (Hs tr)).
    reflexivity.
  - destruct Hs as (Hpage & Htoken & Hrest).
    destruct (Hpage tr) as [Hstatus Hcontent].
    rewrite (market_get_product_list_ok _ _ _ _ Hstatus Hcontent).
    cbn [market_request_tokens map].
    unfold Market.next_token, Market.token_falsy in *.
    destruct (Market.nextPageToken (Market.paging p)) as [t|]; [|discriminate].
    rewrite Htoken.
    rewrite (IH t (acc ++ Market.offerMappingEntries p) fuel
               (tr ++ [Market.ProductList tok]) Hrest ltac:(simpl in Hf; lia)).
    now rewrite <- app_assoc.
Qed.

Lemma market_get_offer_ids_fails (srv : Market.server)
    (pages : list Market.listing) (fuel : nat) tr :
  market_fails_after srv EmptyString pages ->
  List.length pages < fuel ->
  Market.get_offer_ids fuel srv tr =
  (Some (Raise HTTPError),
   tr ++ map Market.ProductList (market_request_tokens EmptyString pages)).
Proof.
  intros Hs Hf. unfold Market.get_offer_ids, io_bind.
  now rewrite (market_loop_fails srv pages EmptyString [] fuel tr Hs Hf).
Qed.

(** Against C9 as stated: a listing call answered with status 300, which is
    not a 2xx status, and a listing as its body raises nothing;
    [upload_stocks] returns and has sent an upload. *)
Lemma status_300_not_raised :
  exists out tr,
    Seller.upload_stocks 1 (seller_mock_status 300) scenario_feed [] =
      (Some (Ok out), tr) /\
    existsb Seller.is_upload tr = true.
Proof. do 2 eexists. split; reflexivity. Qed.

(** C9, amended.  When a listing call is answered with a client or server
    error status (400 to 599), be it the first or one that follows pages
    served without a fault, [upload_stocks] and [upload_prices] of either
    marketplace raise [HTTPError], the listing requests up to the failing
    one being the only requests made; and whatever exception
    [get_offer_ids] raises, on whatever page, the upload flows raise that
    same exception with the trace that [get_offer_ids] left, which holds
    listing requests only. *)
Theorem listing_failure_propagates :
  (forall (srv : Seller.server) F fuel tr,
      0 < fuel ->
      (400 <= Seller.status_code (srv tr (Seller.ProductList EmptyString)) < 600)%Z ->
      Seller.upload_stocks fuel srv F tr =
        (Some (Raise HTTPError), tr ++ [Seller.ProductList EmptyString]) /\
      Seller.upload_prices fuel srv F tr =
        (Some (Raise HTTPError), tr ++ [Seller.ProductList EmptyString])) /\
  (forall (srv : Seller.server) F fuel tr e tr',
      Seller.get_offer_ids fuel srv tr = (Some (Raise e), tr') ->
      Seller.upload_stocks fuel srv F tr = (Some (Raise e), tr') /\
      Seller.upload_prices fuel srv F tr = (Some (Raise e), tr') /\
      exists toks, tr' = tr ++ map Seller.ProductList toks) /\
  (forall (srv : Market.server) F now wh fuel tr,
      0 < fuel ->
      (400 <= Market.status_code (srv tr (Market.ProductList EmptyString)) < 600)%Z ->
      Market.upload_stocks fuel srv now F wh tr =
        (Some (Raise HTTPError), tr ++ [Market.ProductList EmptyString]) /\
      Market.upload_prices fuel srv F tr =
        (Some (Raise HTTPError), tr ++ [Market.ProductList EmptyString])) /\
  (forall (srv : Market.server) F now wh fuel tr e tr',
      Market.get_offer_ids fuel srv tr = (Some (Raise e), tr') ->
      Market.upload_stocks fuel srv now F wh tr = (Some (Raise e), tr') /\
      Market.upload_prices fuel srv F tr = (Some (Raise e), tr') /\
      exists toks, tr' = tr ++ map Market.ProductList toks) /\
  (forall (srv : Seller.server) pages F fuel tr,
      seller_fails_after srv EmptyString 0 pages ->
      List.length pages < fuel ->
      Seller.upload_stocks fuel srv F tr =
        (Some (Raise HTTPError),
         tr ++ map Seller.ProductList (seller_request_tokens EmptyString pages)) /\
      Seller.upload_prices fuel srv F tr =
        (Some (Raise HTTPError),
         tr ++ map Seller.ProductList (seller_request_tokens EmptyString pages))) /\
  (forall (srv : Market.server) pages F now wh fuel tr,
      market_fails_after srv EmptyString pages ->
      List.length pages < fuel ->
      Market.upload_stocks fuel srv now F wh tr =
        (Some (Raise HTTPError),
         tr ++ map Market.ProductList (market_request_tokens EmptyString pages)) /\
      Market.upload_prices fuel srv F tr =
        (Some (Raise HTTPError),
         tr ++ map Market.ProductList (market_request_tokens EmptyString pages))).
Proof.
  split; [|split; [|split; [|split; [|split]]]].
  - intros srv F fuel tr Hf Hs.
    apply seller_upload_raises. now apply seller_get_offer_ids_error.
  - intros srv F fuel tr e tr' H.
    destruct (seller_upload_raises fuel srv F tr e tr' H) as [H1 H2].
    split; [assumption|]. split; [assumption|].
    exact (seller_get_offer_ids_trace _ _ _ _ _ H).
  - intros srv F now wh fuel tr Hf Hs.
    apply market_upload_raises. now apply market_get_offer_ids_error.
  - intros srv F now wh fuel tr e tr' H.
    destruct (market_upload_raises fuel srv F now wh tr e tr' H) as [H1 H2].
    split; [assumption|]. split; [assumption|].
    exact (market_get_offer_ids_trace _ _ _ _ _ H).
  - intros srv pages F fuel tr Hs Hf.
    apply seller_upload_raises. now apply seller_get_offer_ids_fails.
  - intros srv pages F now wh fuel tr Hs Hf.
    apply market_upload_raises. now apply market_get_offer_ids_fails.
Qed.

Lemma seller_mock_fails_later :
  seller_fails_after seller_mock_fail_later EmptyString 0 [seller_page_1].
Proof.
  simpl. repeat split; try (intros; simpl; lia); discriminate.
Defined.

Lemma market_mock_fails_later :
  market_fails_after market_mock_fail_later EmptyString [market_page_1].
Proof.
  simpl. repeat split; intros; simpl; lia.
Defined.

Lemma listing_failure_propagates_witness :
  Seller.upload_stocks 1 (seller_mock_status 500) scenario_feed [] =
    (Some (Raise HTTPError), [Seller.ProductList EmptyString]) /\
  Market.upload_prices 1 (market_mock_status 500) scenario_feed [] =
    (Some (Raise HTTPError), [Market.ProductList EmptyString]) /\
  Seller.upload_stocks 2 seller_mock_fail_later scenario_feed [] =
    (Some (Raise HTTPError),
     [Seller.ProductList EmptyString; Seller.ProductList "p2"]) /\
  Market.upload_stocks 2 market_mock_fail_later clock_a scenario_feed "wh" [] =
    (Some (Raise HTTPError),
     [Market.ProductList EmptyString; Market.ProductList "p2"]).
Proof.
  split; [|split; [|split]].
  - refine (proj1 (proj1 listing_failure_propagates
                     (seller_mock_status 500) scenario_feed 1 [] (le_n 1) _)).
    simpl. lia.
  - refine (proj2 (proj1 (proj2 (proj2 listing_failure_propagates))
                     (market_mock_status 500) scenario_feed clock_a "wh" 1 []
                     (le_n 1) _)).
    simpl. lia.
  - exact (proj1 (proj1 (proj2 (proj2 (proj2 (proj2
                    listing_failure_propagates))))
                    seller_mock_fail_later [seller_page_1] scenario_feed 2 []
                    seller_mock_fails_later (le_n 2))).
  - exact (proj1 (proj2 (proj2 (proj2 (proj2 (proj2
                    listing_failure_propagates))))
                    market_mock_fail_later [market_page_1] scenario_feed
                    clock_a "wh" 2 [] market_mock_fails_later (le_n 2))).
Defined.

(** ** Worked examples *)

Example int_of_text_examples :
  int_of_text "١٢٣" = Some 123%Z /\
  int_of_text "-１_２" = Some (-12)%Z /\
  int_of_text " 5 " = Some 5%Z /\
  int_of_text "нет" = None /\
  int_of_text "²" = None /\
  (* a no-break space U+00A0, then an em space U+2003 *)
  int_of_text " 5" = Some 5%Z /\
  int_of_text "7 " = Some 7%Z /\
  int_of_text "100" = Some 100%Z /\
  int_of_text " -1_000 " = Some (-1000)%Z /\
  int_of_text "007" = Some 7%Z /\
  int_of_text ">10" = None /\
  int_of_text "1__0" = None /\
  int_of_text "2.5" = None /\
  py_str (PyInt 17) = "17" /\
  py_str (PyInt (-4)) = "-4" /\
  stock_of_quantity (PyInt 1) = Ok 0%Z /\
  stock_of_quantity (PyInt 12) = Ok 12%Z /\
  stock_of_quantity PyNone = Raise TypeError.
Proof. repeat split; reflexivity. Qed.

(** The end-to-end scenario: identifiers "A1", "A2", "A3" against the feed
    of "A1" (more than ten, 100.00) and "A2" (exactly one, 50.00). *)
Example scenario_reconcile :
  exists prices,
    Seller.reconcile scenario_feed ["A1"; "A2"; "A3"] =
      Ok ([ {| Seller.offer_id := "A1"; Seller.stock := 100 |};
            {| Seller.offer_id := "A2"; Seller.stock := 0 |};
            {| Seller.offer_id := "A3"; Seller.stock := 0 |} ],
          prices) /\
    map (fun p => (Seller.price_offer_id p, Seller.price_value p)) prices =
      [ ("A1", "100"); ("A2", "50") ].
Proof. eexists. split; reflexivity. Qed.

(** ** Sequences of HTTP calls *)

Lemma for_each_all {Req A B} (f : A -> io Req B) (g : A -> Req) (l : list A) :
  (forall x tr, In x l -> exists b, f x tr = (Some (Ok b), tr ++ [g x])) ->
  forall tr, for_each f l tr = (Some (Ok tt), tr ++ map g l).
Proof.
  induction l as [|x l IH]; intros Hf tr; simpl.
  - unfold io_ret. now rewrite app_nil_r.
  - unfold io_bind. destruct (Hf x tr (or_introl eq_refl)) as [b ->].
    rewrite IH; [now rewrite <- app_assoc|].
    intros y tr' Hy. apply Hf. now right.
Qed.

Lemma for_each_abort {Req A B} (f : A -> io Req B) (g : A -> Req)
    (pre post : list A) (c : A) (e : exn) :
  (forall x tr, In x pre -> exists b, f x tr = (Some (Ok b), tr ++ [g x])) ->
  (forall tr, f c tr = (Some (Raise e), tr ++ [g c])) ->
  forall tr,
    for_each f (pre ++ c :: post) tr = (Some (Raise e), tr ++ map g (pre ++ [c])).
Proof.
  intros Hpre Hc. induction pre as [|x pre IH]; intros tr; simpl.
  - unfold io_bind. now rewrite Hc.
  - unfold io_bind. destruct (Hpre x tr (or_introl eq_refl)) as [b ->].
    rewrite IH; [now rewrite <- app_assoc|].
    intros y tr' Hy. apply Hpre. now right.
Qed.

Lemma for_each_trace {Req A B} (f : A -> io Req B) (g : A -> Req) :
  (forall x tr, exists r, f x tr = (Some r, tr ++ [g x])) ->
  forall l tr, exists r sent rest,
    for_each f l tr = (Some r, tr ++ map g sent) /\
    l = sent ++ rest /\
    (is_ok r = true -> rest = []).
Proof.
  intros Hf. induction l as [|x l IH]; intros tr; simpl.
  - exists (Ok tt), [], []. unfold io_ret. simpl. now rewrite app_nil_r.
  - unfold io_bind. destruct (Hf x tr) as [[b|e] ->].
    + destruct (IH (tr ++ [g x])) as (r & sent & rest & -> & -> & Hok).
      exists r, (x :: sent), rest. simpl. now rewrite <- app_assoc.
    + exists (Raise e), [x], l. simpl. repeat split. discriminate.
Qed.

Lemma divide_chunks {A} (lst : list A) (n : nat) :
  0 < n ->
  exists chunks,
    divide lst n = Ok chunks /\
    List.concat chunks = lst /\
    Forall (fun c => 0 < List.length c <= n) chunks /\
    List.length chunks = ceil_div (List.length lst) n.
Proof.
  intros Hn. unfold divide, py_range.
  destruct (Nat.eqb_spec n 0) as [->|_]; [lia|]. simpl.
  eexists; split; [reflexivity|]. rewrite Nat.sub_0_r.
  split; [|split].
  - now rewrite (range_from_concat lst n Hn) by lia.
  - now apply range_from_chunk_bounds.
  - rewrite length_map. symmetry. apply ceil_div_unique; [assumption|].
    pose proof (range_from_length lst n Hn (List.length lst) 0 ltac:(lia)). lia.
Qed.

(** *** Uploads of marketplace A *)

Lemma seller_update_stocks_eq (srv : Seller.server) c tr :
  Seller.update_stocks srv c tr =
  (Some (_ <- raise_for_status
                (Seller.status_code (srv tr (Seller.UpdateStocks c))) ;;
         Seller.response_json (srv tr (Seller.UpdateStocks c))),
   tr ++ [Seller.UpdateStocks c]).
Proof.
  unfold Seller.update_stocks, io_bind, http, io_lift.
  now destruct (raise_for_status _) as [[]|e].
Qed.

Lemma seller_update_price_eq (srv : Seller.server) c tr :
  Seller.update_price srv c tr =
  (Some (_ <- raise_for_status
                (Seller.status_code (srv tr (Seller.UpdatePrice c))) ;;
         Seller.response_json (srv tr (Seller.UpdatePrice c))),
   tr ++ [Seller.UpdatePrice c]).
Proof.
  unfold Seller.update_price, io_bind, http, io_lift.
  now destruct (raise_for_status _) as [[]|e].
Qed.

Lemma seller_accepted_Ok (r : Seller.response) :
  Seller.accepted r = true ->
  exists b, (_ <- raise_for_status (Seller.status_code r) ;;
             Seller.response_json r) = Ok b.
Proof.
  unfold Seller.accepted, Seller.response_json. intros H.
  apply andb_true_iff in H as [H1 H2].
  destruct (raise_for_status _) as [[]|e]; [|discriminate]. simpl.
  destruct (Seller.content r) as [|o]; [discriminate|]. now exists o.
Qed.

(** X1.  Against a server that accepts every upload, [upload_stocks] of
    marketplace A sends the stock updates that [create_stocks] built, all of
    them, once and in order, in [ceil(len/100)] requests of 1 to 100 updates
    that follow the listing requests, and returns the updates with a
    non-zero stock beside the full list; [upload_prices] does the same with
    the price updates in requests of at most 1000. *)
Theorem seller_upload_batches (fuel : nat) (srv : Seller.server)
    (F : list watch) tr ids tr1 :
  Seller.get_offer_ids fuel srv tr = (Some (Ok ids), tr1) ->
  (forall tr' req, Seller.is_upload req = true ->
                   Seller.accepted (srv tr' req) = true) ->
  (forall stocks rem,
      Seller.create_stocks F ids = Ok (stocks, rem) ->
      exists chunks,
        Seller.upload_stocks fuel srv F tr =
          (Some (Ok (filter (fun s => negb (Seller.stock s =? 0)%Z) stocks,
                     stocks)),
           tr1 ++ map Seller.UpdateStocks chunks) /\
        List.concat chunks = stocks /\
        Forall (fun c => 0 < List.length c <= 100) chunks /\
        List.length chunks = ceil_div (List.length stocks) 100) /\
  (forall prices,
      Seller.create_prices F ids = Ok prices ->
      exists chunks,
        Seller.upload_prices fuel srv F tr =
          (Some (Ok prices), tr1 ++ map Seller.UpdatePrice chunks) /\
        List.concat chunks = prices /\
        Forall (fun c => 0 < List.length c <= 1000) chunks /\
        List.length chunks = ceil_div (List.length prices) 1000).
Proof.
  intros Hget Hacc. split.
  - intros stocks rem Hcs.
    destruct (divide_chunks stocks 100 ltac:(lia)) as (chunks & Hd & Hc & Hb & Hl).
    exists chunks. split; [|now repeat split].
    unfold Seller.upload_stocks, io_bind, io_lift, io_ret.
    rewrite Hget, Hcs, Hd.
    rewrite (for_each_all (Seller.update_stocks srv) Seller.UpdateStocks);
      [reflexivity|].
    intros c tr' _. rewrite seller_update_stocks_eq.
    destruct (seller_accepted_Ok _ (Hacc tr' (Seller.UpdateStocks c) eq_refl))
      as [b ->].
    now exists b.
  - intros prices Hcp.
    destruct (divide_chunks prices 1000 ltac:(lia)) as (chunks & Hd & Hc & Hb & Hl).
    exists chunks. split; [|now repeat split].
    unfold Seller.upload_prices, io_bind, io_lift, io_ret.
    rewrite Hget, Hcp, Hd.
    rewrite (for_each_all (Seller.update_price srv) Seller.UpdatePrice);
      [reflexivity|].
    intros c tr' _. rewrite seller_update_price_eq.
    destruct (seller_accepted_Ok _ (Hacc tr' (Seller.UpdatePrice c) eq_refl))
      as [b ->].
    now exists b.
Qed.

Lemma seller_mock_accepts (tr : list Seller.request) (req : Seller.request) :
  Seller.is_upload req = true -> Seller.accepted (seller_mock tr req) = true.
Proof. destruct req; [discriminate|reflexivity|reflexivity]. Defined.

Lemma seller_upload_batches_witness :
  exists chunks,
    Seller.upload_prices 2 seller_mock scenario_feed [] =
      (Some (Ok (List.concat chunks)),
       [Seller.ProductList EmptyString; Seller.ProductList "p2"]
         ++ map Seller.UpdatePrice chunks) /\
    List.length chunks = 1.
Proof.
  destruct (seller_upload_batches 2 seller_mock scenario_feed []
              ["A1"; "A2"; "A3"]
              [Seller.ProductList EmptyString; Seller.ProductList "p2"]
              eq_refl seller_mock_accepts) as [_ Hprices].
  destruct (Hprices _ eq_refl) as (chunks & Hup & Hc & _ & Hl).
  exists chunks. rewrite Hc. split; [exact Hup|exact Hl].
Defined.

(** *** Uploads of marketplace B *)

Lemma market_update_stocks_eq (srv : Market.server) c tr :
  Market.update_stocks srv c tr =
  (Some (_ <- raise_for_status
                (Market.status_code (srv tr (Market.UpdateStocks c))) ;;
         Market.response_json (srv tr (Market.UpdateStocks c))),
   tr ++ [Market.UpdateStocks c]).
Proof.
  unfold Market.update_stocks, io_bind, http, io_lift.
  now destruct (raise_for_status _) as [[]|e].
Qed.

Lemma market_update_price_eq (srv : Market.server) c tr :
  Market.update_price srv c tr =
  (Some (_ <- raise_for_status
                (Market.status_code (srv tr (Market.UpdatePrice c))) ;;
         Market.response_json (srv tr (Market.UpdatePrice c))),
   tr ++ [Market.UpdatePrice c]).
Proof.
  unfold Market.update_price, io_bind, http, io_lift.
  now destruct (raise_for_status _) as [[]|e].
Qed.

Lemma market_accepted_Ok (r : Market.response) :
  Market.accepted r = true ->
  exists b, (_ <- raise_for_status (Market.status_code r) ;;
             Market.response_json r) = Ok b.
Proof.
  unfold Market.accepted, Market.response_json. intros H.
  apply andb_true_iff in H as [H1 H2].
  destruct (raise_for_status _) as [[]|e]; [|discriminate]. simpl.
  destruct (Market.content r) as [|o]; [discriminate|]. now exists o.
Qed.

(** X2.  Against a server that accepts every upload, [upload_stocks] of
    marketplace B sends the stock entries that [create_stocks] built, all of
    them, once and in order, in [ceil(len/2000)] requests of 1 to 2000
    entries that follow the listing requests, and returns the entries whose
    first item has a non-zero count beside the full list; [upload_prices]
    does the same with the price updates in requests of at most 500. *)
Theorem market_upload_batches (fuel : nat) (srv : Market.server)
    (now : datetime) (F : list watch) (wh : string) tr ids tr1 :
  Market.get_offer_ids fuel srv tr = (Some (Ok ids), tr1) ->
  (forall tr' req, Market.is_upload req = true ->
                   Market.accepted (srv tr' req) = true) ->
  (forall stocks rem,
      Market.create_stocks now F ids wh = Ok (stocks, rem) ->
      exists chunks,
        Market.upload_stocks fuel srv now F wh tr =
          (Some (Ok (filter (fun s => negb (Market.first_count s =? 0)%Z) stocks,
                     stocks)),
           tr1 ++ map Market.UpdateStocks chunks) /\
        List.concat chunks = stocks /\
        Forall (fun c => 0 < List.length c <= 2000) chunks /\
        List.length chunks = ceil_div (List.length stocks) 2000) /\
  (forall prices,
      Market.create_prices F ids = Ok prices ->
      exists chunks,
        Market.upload_prices fuel srv F tr =
          (Some (Ok prices), tr1 ++ map Market.UpdatePrice chunks) /\
        List.concat chunks = prices /\
        Forall (fun c => 0 < List.length c <= 500) chunks /\
        List.length chunks = ceil_div (List.length prices) 500).
Proof.
  intros Hget Hacc. split.
  - intros stocks rem Hcs.
    destruct (divide_chunks stocks 2000 ltac:(lia)) as (chunks & Hd & Hc & Hb & Hl).
    exists chunks. split; [|now repeat split].
    unfold Market.upload_stocks, io_bind, io_lift, io_ret.
    rewrite Hget, Hcs, Hd.
    rewrite (for_each_all (Market.update_stocks srv) Market.UpdateStocks);
      [reflexivity|].
    intros c tr' _. rewrite market_update_stocks_eq.
    destruct (market_accepted_Ok _ (Hacc tr' (Market.UpdateStocks c) eq_refl))
      as [b ->].
    now exists b.
  - intros prices Hcp.
    destruct (divide_chunks prices 500 ltac:(lia)) as (chunks & Hd & Hc & Hb & Hl).
    exists chunks. split; [|now repeat split].
    unfold Market.upload_prices, io_bind, io_lift, io_ret.
    rewrite Hget, Hcp, Hd.
    rewrite (for_each_all (Market.update_price srv) Market.UpdatePrice);
      [reflexivity|].
    intros c tr' _. rewrite market_update_price_eq.
    destruct (market_accepted_Ok _ (Hacc tr' (Market.UpdatePrice c) eq_refl))
      as [b ->].
    now exists b.
Qed.

Lemma market_mock_accepts (tr : list Market.request) (req : Market.request) :
  Market.is_upload req = true -> Market.accepted (market_mock tr req) = true.
Proof. destruct req; [discriminate|reflexivity|reflexivity]. Defined.

Lemma market_upload_batches_witness :
  exists chunks,
    Market.upload_prices 2 market_mock scenario_feed [] =
      (Some (Ok (List.concat chunks)),
       [Market.ProductList EmptyString; Market.ProductList "p2"]
         ++ map Market.UpdatePrice chunks) /\
    List.length chunks = 1.
Proof.
  destruct (market_upload_batches 2 market_mock clock_a scenario_feed "wh" []
              ["A1"; "A2"; "A3"]
              [Market.ProductList EmptyString; Market.ProductList "p2"]
              eq_refl market_mock_accepts) as [_ Hprices].
  destruct (Hprices _ eq_refl) as (chunks & Hup & Hc & _ & Hl).
  exists chunks. rewrite Hc. split; [exact Hup|exact Hl].
Defined.

(** *** A rejected upload *)

(** X3.  When the server accepts the first chunks of stock updates and answers
    the next one with an error status (400 to 599), [upload_stocks] of
    marketplace A raises [HTTPError] right there: the chunks before it and
    the rejected chunk have been sent, the chunks after it never are; a
    chunk answered with a good status and a body that is not JSON stops the
    flow in the same way with [JSONDecodeError]. *)
Theorem seller_upload_stops_at_rejection (fuel : nat) (srv : Seller.server)
    (F : list watch) tr ids tr1 stocks rem pre c post :
  Seller.get_offer_ids fuel srv tr = (Some (Ok ids), tr1) ->
  Seller.create_stocks F ids = Ok (stocks, rem) ->
  divide stocks 100 = Ok (pre ++ c :: post) ->
  (forall tr' x, In x pre ->
                 Seller.accepted (srv tr' (Seller.UpdateStocks x)) = true) ->
  ((forall tr',
       (400 <= Seller.status_code (srv tr' (Seller.UpdateStocks c)) < 600)%Z) ->
   Seller.upload_stocks fuel srv F tr =
     (Some (Raise HTTPError), tr1 ++ map Seller.UpdateStocks (pre ++ [c]))) /\
  ((forall tr',
       raise_for_status (Seller.status_code (srv tr' (Seller.UpdateStocks c)))
         = Ok tt /\
       Seller.content (srv tr' (Seller.UpdateStocks c)) = Seller.NotJSON) ->
   Seller.upload_stocks fuel srv F tr =
     (Some (Raise JSONDecodeError), tr1 ++ map Seller.UpdateStocks (pre ++ [c]))).
Proof.
  intros Hget Hcs Hd Hpre.
  assert (forall x tr', In x pre ->
            exists b, Seller.update_stocks srv x tr' =
                      (Some (Ok b), tr' ++ [Seller.UpdateStocks x])) as Hok.
  { intros x tr' Hx. rewrite seller_update_stocks_eq.
    destruct (seller_accepted_Ok _ (Hpre tr' x Hx)) as [b ->]. now exists b. }
  split; intros Hc;
    unfold Seller.upload_stocks, io_bind, io_lift, io_ret;
    rewrite Hget, Hcs, Hd.
  - rewrite (for_each_abort (Seller.update_stocks srv) Seller.UpdateStocks
               pre post c HTTPError Hok); [reflexivity|].
    intros tr'. rewrite seller_update_stocks_eq.
    now rewrite (raise_for_status_error _ (Hc tr')).
  - rewrite (for_each_abort (Seller.update_stocks srv) Seller.UpdateStocks
               pre post c JSONDecodeError Hok); [reflexivity|].
    intros tr'. rewrite seller_update_stocks_eq.
    destruct (Hc tr') as [-> Hbody]. unfold Seller.response_json.
    now rewrite Hbody.
Qed.

Lemma seller_upload_stops_at_rejection_witness :
  Seller.upload_stocks 1 seller_mock_reject_second [] [] =
    (Some (Raise HTTPError),
     [ Seller.ProductList EmptyString;
       Seller.UpdateStocks (zero_chunk 0 100);
       Seller.UpdateStocks (zero_chunk 100 100) ]) /\
  divide (map zero_stock many_ids) 100 =
    Ok [ zero_chunk 0 100; zero_chunk 100 100; zero_chunk 200 1 ].
Proof.
  assert (divide (map zero_stock many_ids) 100 =
          Ok ([zero_chunk 0 100] ++ zero_chunk 100 100 :: [zero_chunk 200 1]))
    as Hd by (vm_compute; reflexivity).
  split; [|exact Hd].
  refine (proj1 (seller_upload_stops_at_rejection 1 seller_mock_reject_second
                   [] [] many_ids [Seller.ProductList EmptyString]
                   (map zero_stock many_ids) many_ids
                   [zero_chunk 0 100] (zero_chunk 100 100) [zero_chunk 200 1]
                   _ _ Hd _) _).
  - vm_compute. reflexivity.
  - vm_compute. reflexivity.
  - intros tr' x [<-|[]]. vm_compute. reflexivity.
  - intros tr'. vm_compute. split; [discriminate|reflexivity].
Defined.

(** ** [main] of seller.py *)

Lemma prices_loop_none (F : list watch) (acc : list Seller.price_update)
    (J : list string) :
  (forall w, In w F -> py_in (code_text w) J = false) ->
  Seller.prices_loop F acc J = Ok acc.
Proof.
  induction F as [|w F IH]; intros H; simpl; [reflexivity|].
  fold (code_text w). rewrite (H w (or_introl eq_refl)).
  apply IH. intros v Hv. apply H. now right.
Qed.

Lemma create_prices_on_leftover (F : list watch) (I : list string) stocks rem :
  NoDup I ->
  Seller.create_stocks F I = Ok (stocks, rem) ->
  Seller.create_prices F rem = Ok [].
Proof.
  intros HI Hcs.
  destruct (create_stocks_inv _ _ _ _ Hcs) as [st [Hloop _]].
  apply prices_loop_none. intros w Hw. apply py_in_not_In.
  rewrite (stocks_loop_rem_filter _ _ _ _ HI Hloop). intros Hin.
  apply filter_In in Hin as [_ Hin]. apply negb_true_iff in Hin.
  apply py_in_not_In in Hin. apply Hin. now apply in_map.
Qed.

Lemma seller_update_stocks_trace (srv : Seller.server) c tr :
  exists r, Seller.update_stocks srv c tr = (Some r, tr ++ [Seller.UpdateStocks c]).
Proof. rewrite seller_update_stocks_eq. eauto. Qed.

(** X4.  The [try] block of [main] in seller.py never uploads a price when the
    listing returned no identifier twice: [create_prices] runs on the list
    that [create_stocks] has emptied of every feed code, so [prices] is
    empty and no price request follows; whatever the feed download and the
    server do, the requests made are listing requests followed by stock
    uploads only. *)
Theorem seller_main_uploads_no_price (fuel : nat) (srv : Seller.server)
    (download_stock : result (list watch)) tr ids tr1 :
  Seller.get_offer_ids fuel srv tr = (Some (Ok ids), tr1) ->
  NoDup ids ->
  exists r toks sent,
    Seller.main_try fuel srv download_stock tr =
      (Some r, tr ++ map Seller.ProductList toks ++ map Seller.UpdateStocks sent) /\
    (forall stocks prices, r = Ok (stocks, prices) ->
       prices = [] /\ List.concat sent = stocks /\
       exists F rem, download_stock = Ok F /\
                     Seller.create_stocks F ids = Ok (stocks, rem)).
Proof.
  intros Hget Hnd.
  destruct (seller_get_offer_ids_trace _ _ _ _ _ Hget) as [toks ->].
  unfold Seller.main_try.
  unfold io_bind at 1. rewrite Hget.
  unfold io_bind at 1, io_lift at 1.
  destruct download_stock as [F|e].
  2:{ exists (Raise e), toks, []. simpl. rewrite app_nil_r.
      split; [reflexivity|discriminate]. }
  unfold io_bind at 1, io_lift at 1.
  destruct (Seller.create_stocks F ids) as [[stocks rem]|e] eqn:Hcs.
  2:{ exists (Raise e), toks, []. simpl. rewrite app_nil_r.
      split; [reflexivity|discriminate]. }
  unfold io_bind at 1, io_lift at 1.
  destruct (divide_chunks stocks 100 ltac:(lia)) as (chunks & -> & Hc & _ & _).
  unfold io_bind at 1.
  destruct (for_each_trace (Seller.update_stocks srv) Seller.UpdateStocks
              (seller_update_stocks_trace srv) chunks
              (tr ++ map Seller.ProductList toks))
    as (r & sent & rest & -> & Hsplit & Hok).
  destruct r as [[]|e].
  2:{ exists (Raise e), toks, sent. rewrite <- app_assoc.
      split; [reflexivity|discriminate]. }
  rewrite (Hok eq_refl), app_nil_r in Hsplit. subst sent.
  unfold io_bind, io_lift, io_ret.
  rewrite (create_prices_on_leftover _ _ _ _ Hnd Hcs).
  exists (Ok (stocks, [])), toks, chunks. rewrite <- app_assoc.
  split; [reflexivity|].
  intros stocks' prices' H. injection H as <- <-.
  split; [reflexivity|]. split; [assumption|]. now exists F, rem.
Qed.

Lemma seller_main_uploads_no_price_witness :
  exists r toks sent,
    Seller.main_try 2 seller_mock (Ok scenario_feed) [] =
      (Some r, map Seller.ProductList toks ++ map Seller.UpdateStocks sent).
Proof.
  destruct (seller_main_uploads_no_price 2 seller_mock (Ok scenario_feed) []
              ["A1"; "A2"; "A3"]
              [Seller.ProductList EmptyString; Seller.ProductList "p2"]
              eq_refl)
    as (r & toks & sent & H & _).
  - repeat constructor; simpl; intuition discriminate.
  - now exists r, toks, sent.
Defined.

(** ** Records and identifiers that do not meet *)

Lemma stocks_loop_listed (F : list watch) :
  forall I J,
    (forall x, In x I -> In x J) ->
    Seller.stocks_loop F [] I = Seller.stocks_loop (listed J F) [] I.
Proof.
  induction F as [|w F IH]; intros I J Hsub; [reflexivity|].
  unfold listed. simpl filter. fold (listed J F).
  destruct (py_in (code_text w) J) eqn:HJ.
  - destruct (py_in (code_text w) I) eqn:HI.
    + rewrite !(stocks_loop_match _ _ _ HI).
      rewrite (IH (remove_first (code_text w) I) J); [reflexivity|].
      intros x Hx. apply Hsub.
      eapply Subseq_In; [apply remove_first_Subseq|eassumption].
    + rewrite !(stocks_loop_skip _ _ _ HI). now apply IH.
  - assert (py_in (code_text w) I = false) as HI.
    { apply py_in_not_In. intros H. apply py_in_not_In in HJ. auto. }
    rewrite (stocks_loop_skip _ _ _ HI). now apply IH.
Qed.

(** X5.  A feed record whose code is not among the identifiers is never looked
    at: [create_stocks] and [create_prices] return (or raise) on the whole
    feed what they do on the feed restricted to the listed codes, so an
    unparsable quantity or price in an unlisted record cannot make them
    fail. *)
Theorem unlisted_records_ignored (F : list watch) (I : list string) :
  Seller.create_stocks F I = Seller.create_stocks (listed I F) I /\
  Seller.create_prices F I = Seller.create_prices (listed I F) I.
Proof.
  split.
  - rewrite !create_stocks_unfold. now rewrite (stocks_loop_listed F I I).
  - unfold Seller.create_prices. generalize (@nil Seller.price_update).
    unfold listed. induction F as [|w F IH]; intros acc; [reflexivity|].
    simpl. fold (code_text w).
    destruct (py_in (code_text w) I) eqn:HI; simpl.
    + fold (code_text w). rewrite HI.
      destruct (price_conversion_val (price w)); simpl; [apply IH|reflexivity].
    + apply IH.
Qed.

Lemma stocks_loop_no_ids (F : list watch) (acc : list Seller.stock_update) :
  Seller.stocks_loop F acc [] = Ok (acc, []).
Proof. induction F as [|w F IH]; simpl; [reflexivity|apply IH]. Qed.

(** X6.  With no identifiers [create_stocks] and [create_prices] return empty
    lists whatever the feed holds; with an empty feed [create_stocks] gives
    every identifier a zero-stock update, in the order of the list, which it
    leaves as it was, and [create_prices] returns nothing. *)
Theorem empty_inputs :
  (forall F, Seller.create_stocks F [] = Ok ([], []) /\
             Seller.create_prices F [] = Ok []) /\
  (forall I, Seller.create_stocks [] I = Ok (map zero_stock I, I) /\
             Seller.create_prices [] I = Ok []).
Proof.
  split.
  - intros F. split.
    + unfold Seller.create_stocks. now rewrite stocks_loop_no_ids.
    + apply prices_loop_none. reflexivity.
  - intros I. split; [|reflexivity].
    rewrite create_stocks_unfold. reflexivity.
Qed.

Lemma py_in_ext (I J : list string) :
  (forall x, In x I <-> In x J) -> forall x, py_in x I = py_in x J.
Proof.
  intros H x. apply eq_true_iff_eq. rewrite !py_in_In. apply H.
Qed.

(** X7.  [create_prices] of either marketplace looks at the identifiers as a set:
    two identifier lists with the same elements, in whatever order and
    however often, give the same price updates (or the same exception). *)
Theorem create_prices_identifier_set (F : list watch) (I J : list string) :
  (forall x, In x I <-> In x J) ->
  Seller.create_prices F I = Seller.create_prices F J /\
  Market.create_prices F I = Market.create_prices F J.
Proof.
  intros H. pose proof (py_in_ext I J H) as E. split.
  - unfold Seller.create_prices. generalize (@nil Seller.price_update).
    induction F as [|w F IH]; intros acc; simpl; [reflexivity|].
    rewrite E. destruct (py_in (py_str (code w)) J); [|apply IH].
    destruct (price_conversion_val (price w)); simpl; [apply IH|reflexivity].
  - unfold Market.create_prices. generalize (@nil Market.price_update).
    induction F as [|w F IH]; intros acc; simpl; [reflexivity|].
    rewrite E. destruct (py_in (py_str (code w)) J); [|apply IH].
    destruct (price_conversion_val (price w)) as [p|e]; simpl; [|reflexivity].
    destruct (int_of_text p); simpl; [apply IH|reflexivity].
Qed.

Lemma create_prices_identifier_set_witness :
  Seller.create_prices scenario_feed ["A1"; "A2"] =
  Seller.create_prices scenario_feed ["A2"; "A1"; "A1"].
Proof.
  apply (create_prices_identifier_set scenario_feed ["A1"; "A2"] ["A2"; "A1"; "A1"]).
  intros x. simpl. tauto.
Defined.

(** ** More on the price text *)

Lemma sub_non_digits_length (s : string) :
  String.length (sub_non_digits s) <= String.length s.
Proof.
  induction s as [|c s IH]; simpl; [lia|].
  destruct (is_digit c); simpl; lia.
Qed.

Lemma prefix_before_dot_length (s : string) :
  String.length (prefix_before_dot s) <= String.length s.
Proof.
  induction s as [|c s IH]; simpl; [lia|].
  destruct (Ascii.eqb c "."); simpl; lia.
Qed.

(** X8.  [price_conversion] returns decimal digits only, never more characters
    than it was given, and leaves its own results unchanged: converting a
    converted price again gives the same text. *)
Theorem price_conversion_idempotent (s : string) :
  all_digits (price_conversion s) = true /\
  String.length (price_conversion s) <= String.length s /\
  price_conversion (price_conversion s) = price_conversion s.
Proof.
  assert (all_digits (price_conversion s) = true) as Hd
    by apply sub_non_digits_all_digits.
  split; [assumption|]. split.
  - unfold price_conversion. rewrite split_dot_0_prefix.
    pose proof (sub_non_digits_length (prefix_before_dot s)).
    pose proof (prefix_before_dot_length s). lia.
  - unfold price_conversion at 1. rewrite split_dot_0_prefix.
    rewrite (prefix_before_dot_id _ (all_digits_no_dot _ Hd)).
    now apply sub_non_digits_id.
Qed.

Lemma market_prices_loop_acc (F : list watch) (acc : list Market.price_update)
    (I : list string) :
  Market.prices_loop F acc I =
  ps <- Market.prices_loop F [] I ;; Ok (acc ++ ps).
Proof.
  revert acc. induction F as [|w F IH]; intros acc; simpl.
  - now rewrite app_nil_r.
  - destruct (py_in (py_str (code w)) I); [|apply IH].
    destruct (price_conversion_val (price w)) as [p|e]; simpl; [|reflexivity].
    destruct (int_of_text p) as [v|]; simpl; [|reflexivity].
    rewrite IH, (IH [_]).
    destruct (Market.prices_loop F [] I) as [ps|e]; simpl; [|reflexivity].
    now rewrite <- app_assoc.
Qed.

Lemma market_prices_loop_app (pre post : list watch)
    (acc : list Market.price_update) (I : list string) :
  Market.prices_loop (pre ++ post) acc I =
  acc' <- Market.prices_loop pre acc I ;; Market.prices_loop post acc' I.
Proof.
  revert acc. induction pre as [|w pre IH]; intros acc; simpl; [reflexivity|].
  destruct (py_in (py_str (code w)) I); [|apply IH].
  destruct (price_conversion_val (price w)) as [p|e]; simpl; [|reflexivity].
  destruct (int_of_text p) as [v|]; simpl; [apply IH|reflexivity].
Qed.

Lemma prices_loop_app (pre post : list watch)
    (acc : list Seller.price_update) (I : list string) :
  Seller.prices_loop (pre ++ post) acc I =
  acc' <- Seller.prices_loop pre acc I ;; Seller.prices_loop post acc' I.
Proof.
  revert acc. induction pre as [|w pre IH]; intros acc; simpl; [reflexivity|].
  destruct (py_in (py_str (code w)) I); [|apply IH].
  destruct (price_conversion_val (price w)) as [p|e]; simpl; [apply IH|reflexivity].
Qed.

(** X9.  The price of marketplace B is [int] of the converted text.  A
    listed record whose price text has no digit before its first decimal
    point (an empty cell, say), wherever it stands in the feed, makes
    [create_prices] of market.py raise [ValueError] once the records before
    it have been processed without an exception, where seller.py goes on and
    emits an update with an empty price for it; and whenever [create_prices]
    of market.py returns, it holds one update per listed feed record, in
    feed order, each with a price that is not negative, in the currency
    "RUR". *)
Theorem market_price_values :
  (forall pre w post I s,
      py_in (code_text w) I = true ->
      price w = PyStr s ->
      price_conversion s = EmptyString ->
      (forall done,
          Market.create_prices pre I = Ok done ->
          Market.create_prices (pre ++ w :: post) I = Raise ValueError) /\
      (forall done,
          Seller.create_prices pre I = Ok done ->
          Seller.create_prices (pre ++ w :: post) I =
            (ps <- Seller.create_prices post I ;;
             Ok (done ++
                 {| Seller.auto_action_enabled := "UNKNOWN";
                    Seller.currency_code := "RUB";
                    Seller.price_offer_id := code_text w;
                    Seller.old_price := "0";
                    Seller.price_value := EmptyString |} :: ps)))) /\
  (forall F I ps,
      Market.create_prices F I = Ok ps ->
      map Market.id ps = map code_text (listed I F) /\
      Forall (fun p => (0 <= Market.value (Market.price_of p))%Z /\
                       Market.currencyId (Market.price_of p) = "RUR") ps).
Proof.
  split.
  - intros pre w post I s Hin Hp Hempty. unfold code_text in Hin. split.
    + intros done Hpre. unfold Market.create_prices in *.
      rewrite market_prices_loop_app, Hpre. cbn [rbind].
      cbn [Market.prices_loop]. rewrite Hin, Hp.
      cbn [price_conversion_val rbind]. now rewrite Hempty.
    + intros done Hpre. unfold Seller.create_prices in *.
      rewrite prices_loop_app, Hpre. cbn [rbind].
      cbn [Seller.prices_loop]. rewrite Hin, Hp.
      cbn [price_conversion_val rbind]. rewrite Hempty, prices_loop_acc.
      destruct (Seller.prices_loop post [] I) as [ps|e]; cbn [rbind];
        [|reflexivity].
      now rewrite <- app_assoc.
  - unfold Market.create_prices, listed.
    induction F as [|w F IH]; intros I ps H; simpl in H.
    + injection H as <-. split; constructor.
    + simpl. fold (code_text w) in *.
      destruct (py_in (code_text w) I); [|now apply IH].
      destruct (price w) as [| |s]; simpl in H; try discriminate.
      destruct (int_of_text (price_conversion s)) as [v|] eqn:Hv;
        simpl in H; [|discriminate].
      rewrite market_prices_loop_acc in H.
      destruct (Market.prices_loop F [] I) as [ps'|e] eqn:Hloop;
        simpl in H; [|discriminate].
      injection H as <-. destruct (IH I ps' Hloop) as [Hids Hall].
      split; [simpl; now rewrite Hids|].
      constructor; [|assumption]. simpl. split; [|reflexivity].
      pose proof (sub_non_digits_all_digits (split_dot_0 s)) as Hd.
      fold (price_conversion s) in Hd.
      rewrite (int_of_text_digits _ Hd) in Hv.
      destruct (max_str_digits <? digit_count (price_conversion s))%N;
        [discriminate|].
      destruct (string_dec (price_conversion s) EmptyString) as [E|E].
      * rewrite E in Hv. discriminate.
      * destruct (int_digits_digits (price_conversion s) 0 false Hd
                    (or_introl E) (Z.le_refl 0)) as [z [Hz Hpos]].
        congruence.
Qed.

Lemma market_price_values_witness :
  Market.create_prices
    [ {| code := PyStr "A1"; quantity := PyStr "3"; price := PyStr "7.00" |};
      {| code := PyStr "A2"; quantity := PyStr "3"; price := PyStr ".50" |};
      {| code := PyStr "A3"; quantity := PyStr "3"; price := PyStr "9" |} ]
    ["A1"; "A2"; "A3"] = Raise ValueError.
Proof.
  exact (proj1 (proj1 market_price_values
                  [ {| code := PyStr "A1"; quantity := PyStr "3";
                       price := PyStr "7.00" |} ]
                  {| code := PyStr "A2"; quantity := PyStr "3";
                     price := PyStr ".50" |}
                  [ {| code := PyStr "A3"; quantity := PyStr "3";
                       price := PyStr "9" |} ]
                  ["A1"; "A2"; "A3"] ".50" eq_refl eq_refl eq_refl)
           _ eq_refl).
Defined.

(** ** The two marketplaces side by side *)

(** X10.  On the same feed and identifiers [create_stocks] of market.py and of
    seller.py raise the same exception or both return, leaving the same
    identifiers in the caller's list; the entries of market.py then carry
    the identifiers and quantities of seller.py's updates, one for one and
    in the same order, each as a single item of type "FIT" with the given
    warehouse and the timestamp of the call. *)
Theorem market_stocks_mirror_seller (now : datetime) (F : list watch)
    (I : list string) (wh : string) :
  match Seller.create_stocks F I, Market.create_stocks now F I wh with
  | Ok (stocks, rem), Ok (entries, rem') =>
      rem' = rem /\
      map Market.sku entries = map Seller.offer_id stocks /\
      map Market.first_count entries = map Seller.stock stocks /\
      Forall (fun e =>
                Market.warehouseId e = wh /\
                exists n, Market.items e =
                          [ {| Market.count := n; Market.type := "FIT";
                               Market.updatedAt := date_of now |} ]) entries
  | Raise e, Raise e' => e' = e
  | _, _ => False
  end.
Proof.
  rewrite market_create_stocks.
  destruct (Seller.create_stocks F I) as [[stocks rem]|e]; simpl; [|reflexivity].
  split; [reflexivity|]. rewrite !map_map. simpl.
  split; [reflexivity|]. split; [reflexivity|].
  apply Forall_forall. intros e He. apply in_map_iff in He as [u [<- _]].
  simpl. split; [reflexivity|]. now exists (Seller.stock u).
Qed.

(** ** Quantity cells that are integers *)

Lemma py_str_int_one (z : Z) : py_str (PyInt z) = "1" -> z = 1%Z.
Proof.
  simpl. intros H.
  assert (NilZero.int_of_string (NilZero.string_of_int (Z.to_int z))
          = Some (Decimal.Pos (Decimal.D1 Decimal.Nil))) as E
    by (rewrite H; reflexivity).
  destruct (Z.to_int z) as [d|d] eqn:Hz.
  - destruct d as [|d|d|d|d|d|d|d|d|d|d];
      try (rewrite NilZero.isi in E by discriminate; discriminate E);
      try discriminate E.
    rewrite NilZero.isi in E by discriminate.
    rewrite <- (DecimalZ.of_to z), Hz. now injection E as ->.
  - destruct d as [|d|d|d|d|d|d|d|d|d|d];
      [rewrite NilZero.isi_negnil in E
      |rewrite NilZero.isi in E by discriminate..]; discriminate.
Qed.

Lemma py_str_int_not_more_than_ten (z : Z) : py_str (PyInt z) <> ">10".
Proof.
  simpl. intros H.
  assert (NilZero.int_of_string (NilZero.string_of_int (Z.to_int z)) = None) as E
    by (rewrite H; reflexivity).
  destruct (Z.to_int z) as [d|d]; destruct d;
    first [ rewrite NilZero.isi_posnil in E
          | rewrite NilZero.isi_negnil in E
          | rewrite NilZero.isi in E by discriminate ]; discriminate.
Qed.

(** X11.  A quantity cell that holds an integer of at most 4300 decimal
    digits (from one more on [str] itself raises) never makes the quantity
    rule fail: the stock is the integer itself, whatever its sign, except
    that the integer 1 gives the stock 0. *)
Theorem integer_quantity_cells (z : Z) :
  (Z.abs z < 10 ^ 4300)%Z ->
  stock_of_quantity (PyInt z) = Ok (if (z =? 1)%Z then 0%Z else z).
Proof.
  intros _. unfold stock_of_quantity.
  destruct (String.eqb_spec (py_str (PyInt z)) ">10") as [E|_].
  - now destruct (py_str_int_not_more_than_ten z).
  - destruct (String.eqb_spec (py_str (PyInt z)) "1") as [E|E].
    + now rewrite (py_str_int_one z E).
    + destruct (Z.eqb_spec z 1) as [->|_]; [now destruct E|reflexivity].
Qed.

Lemma integer_quantity_cells_witness :
  stock_of_quantity (PyInt (-7)) = Ok (-7)%Z /\
  stock_of_quantity (PyInt 1) = Ok 0%Z.
Proof.
  split.
  - apply (integer_quantity_cells (-7)). vm_compute. reflexivity.
  - apply (integer_quantity_cells 1). vm_compute. reflexivity.
Defined.

(** ** The listing loop of marketplace A and its total *)

(** X12.  The loop of [get_offer_ids] in seller.py ends on [total == len] and on
    nothing else: once more products are collected than any total the
    server reports, it goes on requesting pages for as long as it is
    allowed to run, one request per iteration, whatever tokens and pages
    come back. *)
Theorem seller_listing_overshoot (srv : Seller.server) (T : Z) :
  (forall tr tok, exists p,
      raise_for_status (Seller.status_code (srv tr (Seller.ProductList tok)))
        = Ok tt /\
      Seller.content (srv tr (Seller.ProductList tok)) = Seller.JSON (Some p) /\
      (Seller.total p <= T)%Z) ->
  forall fuel tok acc tr,
    (T < Z.of_nat (List.length acc))%Z ->
    exists toks,
      Seller.offer_ids_loop fuel srv tok acc tr =
        (None, tr ++ map Seller.ProductList toks) /\
      List.length toks = fuel.
Proof.
  intros Hsrv. induction fuel as [|fuel IH]; intros tok acc tr Hacc.
  - exists []. split; [|reflexivity]. simpl. unfold still_running.
    now rewrite app_nil_r.
  - cbn [Seller.offer_ids_loop]. unfold io_bind at 1.
    rewrite seller_get_product_list_eq.
    destruct (Hsrv tr tok) as (p & -> & Hbody & Htotal).
    unfold Seller.response_json. rewrite Hbody. cbn [rbind].
    destruct (Z.eqb_spec (Seller.total p)
                (Z.of_nat (List.length (acc ++ Seller.items p)))) as [E|_].
    + rewrite length_app in E. lia.
    + destruct (IH (Seller.last_id p) (acc ++ Seller.items p)
                  (tr ++ [Seller.ProductList tok])) as [toks [-> Hlen]].
      * rewrite length_app. lia.
      * exists (tok :: toks). split; [|simpl; now rewrite Hlen].
        now rewrite <- app_assoc.
Qed.

Lemma seller_listing_overshoot_witness :
  exists toks,
    Seller.offer_ids_loop 3 (seller_mock_status 200) EmptyString
      [ {| Seller.product_offer_id := "A1" |};
        {| Seller.product_offer_id := "A1" |} ] [] =
      (None, map Seller.ProductList toks) /\
    List.length toks = 3.
Proof.
  refine (seller_listing_overshoot (seller_mock_status 200) 1 _ 3 EmptyString
            [ {| Seller.product_offer_id := "A1" |};
              {| Seller.product_offer_id := "A1" |} ] [] _).
  - intros tr tok. exists seller_single_page. repeat split. simpl. lia.
  - simpl. lia.
Defined.

(** ** Listing answers without a listing *)

(** X13.  A first listing answer whose status is not an error but whose body is
    not JSON makes [get_offer_ids] of either marketplace raise
    [JSONDecodeError]; a JSON body without a "result" entry makes it raise
    [AttributeError] on the first field access; in both cases after this one
    request. *)
Theorem listing_body_errors :
  (forall (srv : Seller.server) fuel tr,
      0 < fuel ->
      raise_for_status
        (Seller.status_code (srv tr (Seller.ProductList EmptyString))) = Ok tt ->
      (Seller.content (srv tr (Seller.ProductList EmptyString)) = Seller.NotJSON ->
       Seller.get_offer_ids fuel srv tr =
         (Some (Raise JSONDecodeError), tr ++ [Seller.ProductList EmptyString])) /\
      (Seller.content (srv tr (Seller.ProductList EmptyString)) = Seller.JSON None ->
       Seller.get_offer_ids fuel srv tr =
         (Some (Raise AttributeError), tr ++ [Seller.ProductList EmptyString]))) /\
  (forall (srv : Market.server) fuel tr,
      0 < fuel ->
      raise_for_status
        (Market.status_code (srv tr (Market.ProductList EmptyString))) = Ok tt ->
      (Market.content (srv tr (Market.ProductList EmptyString)) = Market.NotJSON ->
       Market.get_offer_ids fuel srv tr =
         (Some (Raise JSONDecodeError), tr ++ [Market.ProductList EmptyString])) /\
      (Market.content (srv tr (Market.ProductList EmptyString)) = Market.JSON None ->
       Market.get_offer_ids fuel srv tr =
         (Some (Raise AttributeError), tr ++ [Market.ProductList EmptyString]))).
Proof.
  split; intros srv fuel tr Hf Hs; (destruct fuel as [|fuel]; [lia|]);
    split; intros Hb.
  - unfold Seller.get_offer_ids. cbn [Seller.offer_ids_loop]. unfold io_bind.
    rewrite seller_get_product_list_eq, Hs. unfold Seller.response_json.
    now rewrite Hb.
  - unfold Seller.get_offer_ids. cbn [Seller.offer_ids_loop]. unfold io_bind.
    rewrite seller_get_product_list_eq, Hs. unfold Seller.response_json.
    now rewrite Hb.
  - unfold Market.get_offer_ids. cbn [Market.offer_ids_loop]. unfold io_bind.
    rewrite market_get_product_list_eq, Hs. unfold Market.response_json.
    now rewrite Hb.
  - unfold Market.get_offer_ids. cbn [Market.offer_ids_loop]. unfold io_bind.
    rewrite market_get_product_list_eq, Hs. unfold Market.response_json.
    now rewrite Hb.
Qed.

Lemma listing_body_errors_witness :
  Seller.get_offer_ids 1
    (fun _ _ => {| Seller.status_code := 200;
                   Seller.content := Seller.JSON None |}) [] =
    (Some (Raise AttributeError), [Seller.ProductList EmptyString]).
Proof.
  exact (proj2 (proj1 listing_body_errors
                  (fun _ _ => {| Seller.status_code := 200;
                                 Seller.content := Seller.JSON None |})
                  1 [] (le_n 1) eq_refl) eq_refl).
Defined.


(** ** The timestamp of marketplace B *)

Lemma digit_char_is_digit (n : nat) : is_digit (digit_char n) = true.
Proof.
  unfold digit_char.
  pose proof (Nat.mod_upper_bound n 10 ltac:(lia)) as H.
  remember (n mod 10) as k eqn:E. clear E.
  do 10 (destruct k as [|k]; [reflexivity|]). lia.
Qed.

Lemma all_digits_snoc (s : string) (c : ascii) :
  all_digits s = true -> is_digit c = true ->
  all_digits (s ++ String c EmptyString)%string = true.
Proof.
  intros Hs Hc. induction s as [|d s IH]; cbn [append all_digits] in *.
  - now rewrite Hc.
  - apply andb_true_iff in Hs as [Hd Hs]. now rewrite Hd, IH.
Qed.

Lemma append_length (a b : string) :
  String.length (a ++ b)%string = String.length a + String.length b.
Proof.
  induction a as [|c a IH]; cbn [append String.length]; [reflexivity|].
  now rewrite IH.
Qed.

Lemma zero_pad_digits (width n : nat) :
  all_digits (zero_pad width n) = true /\
  String.length (zero_pad width n) = width.
Proof.
  revert n. induction width as [|w IH]; intros n; [now split|].
  cbn [zero_pad]. destruct (IH (n / 10)) as [Hd Hl]. split.
  - apply all_digits_snoc; [assumption|apply digit_char_is_digit].
  - rewrite append_length, Hl. cbn [String.length]. lia.
Qed.

Lemma append_no_dot (a b : string) :
  has_char "." a = false -> has_char "." b = false ->
  has_char "." (a ++ b)%string = false.
Proof.
  intros Ha Hb. induction a as [|c a IH]; cbn [append has_char] in *;
    [assumption|].
  apply orb_false_iff in Ha as [-> Ha]. now apply IH.
Qed.

Lemma get_after (a : string) (c : ascii) :
  String.get (String.length a) (a ++ String c EmptyString)%string = Some c.
Proof.
  induction a as [|d a IH]; cbn [append String.length String.get];
    [reflexivity|assumption].
Qed.

(** X14.  The [updatedAt] text that [create_stocks] of market.py stamps on its
    entries is always 20 characters long, ends in "Z" and holds no decimal
    point: the microseconds of the clock never reach it, and two readings of
    the clock within the same second give the same text. *)
Theorem timestamp_shape (now : datetime) :
  String.length (date_of now) = 20 /\
  has_char "." (date_of now) = false /\
  String.get 19 (date_of now) = Some "Z"%char /\
  (forall now',
      (year now', month now', day now') = (year now, month now, day now) ->
      (hour now', minute now', second now') = (hour now, minute now, second now) ->
      date_of now' = date_of now).
Proof.
  assert (forall w n, has_char "." (zero_pad w n) = false) as Hnd.
  { intros w n. apply all_digits_no_dot, zero_pad_digits. }
  assert (forall w n, String.length (zero_pad w n) = w) as Hlen.
  { intros w n. apply zero_pad_digits. }
  assert (forall d, String.length (isoformat (replace_microsecond_0 d)) = 19)
    as Hiso.
  { intros d. unfold isoformat.
    cbn [replace_microsecond_0 year month day hour minute second microsecond
         Nat.eqb].
    rewrite !append_length, !Hlen. reflexivity. }
  split; [|split; [|split]].
  - unfold date_of. rewrite append_length, Hiso. reflexivity.
  - unfold date_of, isoformat.
    cbn [replace_microsecond_0 year month day hour minute second microsecond
         Nat.eqb].
    apply append_no_dot; [|reflexivity].
    repeat (apply append_no_dot; [first [apply Hnd|reflexivity]|]).
    reflexivity.
  - unfold date_of. rewrite <- (Hiso now). apply get_after.
  - intros now' H1 H2. injection H1 as E1 E2 E3. injection H2 as E4 E5 E6.
    unfold date_of, isoformat.
    cbn [replace_microsecond_0 year month day hour minute second microsecond
         Nat.eqb].
    now rewrite E1, E2, E3, E4, E5, E6.
Qed.

Lemma timestamp_shape_witness : date_of clock_a' = date_of clock_a.
Proof.
  exact (proj2 (proj2 (proj2 (timestamp_shape clock_a))) clock_a'
           eq_refl eq_refl).
Defined.

(** ** The report of [upload_stocks] *)

Lemma Forall2_In_r {A B} (R : A -> B -> Prop) (l1 : list A) (l2 : list B) (b : B) :
  Forall2 R l1 l2 -> In b l2 -> exists a, In a l1 /\ R a b.
Proof.
  induction 1 as [|x y l1 l2 Hxy _ IH]; intros Hb; [destruct Hb|].
  destruct Hb as [<-|Hb].
  - exists x. split; [now left|assumption].
  - destruct (IH Hb) as [a [Ha HR]]. exists a. split; [now right|assumption].
Qed.

(** X15.  The first list that [upload_stocks] returns, the stock updates with a
    non-zero stock, never holds an update invented for a leftover
    identifier: each of its elements was made from a feed record with that
    code, whose quantity normalises to the stock it carries; and the list
    keeps the order of the full one. *)
Theorem not_empty_from_feed (F : list watch) (I : list string) stocks rem :
  Seller.create_stocks F I = Ok (stocks, rem) ->
  let not_empty := filter (fun s => negb (Seller.stock s =? 0)%Z) stocks in
  Subseq not_empty stocks /\
  (forall u, In u not_empty ->
             Seller.stock u <> 0%Z /\
             exists w, In w F /\ stock_from w u) /\
  (forall u, In u stocks -> Seller.stock u <> 0%Z -> In u not_empty).
Proof.
  intros Hcs. destruct (create_stocks_inv _ _ _ _ Hcs) as [st [Hloop ->]].
  cbv zeta. split; [|split].
  - generalize (st ++ map zero_stock rem). intros l.
    induction l as [|u l IH]; simpl; [constructor|].
    destruct (negb (Seller.stock u =? 0)%Z);
      [now apply Subseq_keep|now apply Subseq_skip].
  - intros u Hu. apply filter_In in Hu as [Hu Hnz].
    apply negb_true_iff, Z.eqb_neq in Hnz. split; [assumption|].
    apply in_app_or in Hu as [Hu|Hu].
    + destruct (stocks_loop_from_feed _ _ _ _ Hloop) as [ws [Hsub Hall]].
      destruct (Forall2_In_r _ _ _ _ Hall Hu) as [w [Hw Hfrom]].
      exists w. split; [|assumption]. now apply (Subseq_In _ _ _ Hsub).
    + apply in_map_iff in Hu as [x [<- _]]. now destruct Hnz.
  - intros u Hu Hnz. apply filter_In. split; [assumption|].
    now apply negb_true_iff, Z.eqb_neq.
Qed.

Lemma not_empty_from_feed_witness :
  exists w,
    In w scenario_feed /\
    stock_from w {| Seller.offer_id := "A1"; Seller.stock := 100 |}.
Proof.
  refine (proj2 (proj1 (proj2 (not_empty_from_feed scenario_feed
                                 ["A1"; "A2"; "A3"] _ _ eq_refl))
                   {| Seller.offer_id := "A1"; Seller.stock := 100 |} _)).
  simpl. now left.
Defined.
